(** * catcryption-mvp: the message envelope of [app.js]

    A shallow embedding of [src/app.js]: the key store kept in
    [localStorage], the sealing and opening of messages through libsodium
    ([encryptMessage], [decryptMessage]) and the button handlers that drive
    them.  The browser and the libraries the script calls (JSON,
    localStorage quota, libsodium, the random generator) are an interface,
    [Platform]; everything the script itself does is a definition below. *)

From stdpp Require Import base option list gmap strings pretty.
From Stdlib Require Import Ascii ZArith Lia.
From Stdlib Require String.

Local Open Scope Z_scope.
Local Set Warnings "-register-all".

(** ** Values and errors of the script *)

(** A byte buffer ([Uint8Array]). *)
Abbreviation bytes := (list ascii).

(** The JavaScript values the script can hold in a variable that comes out
    of [JSON.parse] or of a property read.  Numbers are kept as integers,
    which covers the safe integers of JavaScript and no other number: the
    script never computes with a stored number, it tests it and prints
    it.  A string is kept as the bytes of its UTF-8 encoding. *)
Inductive value : Type :=
  | VUndefined
  | VNull
  | VBool (b : bool)
  | VNum (n : Z)
  | VStr (s : string)
  | VArr (l : list value)
  | VObj (fields : list (string * value)).

(** What can be thrown.  The first three are the [Error]s the script
    constructs itself; the others are raised by the runtime or a library. *)
Inductive error : Type :=
  | NoLocalKeypair        (* Error("No local keypair found") *)
  | InvalidMessageFormat  (* Error("Invalid message format") *)
  | FailedToDecrypt       (* Error("Failed to decrypt message. It may not be
                             intended for you or is corrupted.") *)
  | TypeError             (* property read on null/undefined, call of a
                             non-function, wrong argument type *)
  | SyntaxError           (* JSON.parse on text that is not JSON *)
  | SodiumError           (* Error thrown inside a libsodium wrapper *)
  | QuotaExceededError.   (* localStorage.setItem *)

Inductive result (A : Type) : Type :=
  | Ok (a : A)
  | Err (e : error).
Arguments Ok {A} a.
Arguments Err {A} e.

Global Instance error_eq_dec : EqDecision error.
Proof. solve_decision. Defined.

(** The [alert]s of the button handlers. *)
Inductive alert : Type :=
  | SelectRecipientFirst     (* "Select a recipient first" *)
  | TypeMessageFirst         (* "Type a message first" *)
  | PasteMessageFirst        (* "Paste an encrypted message first" *)
  | NameAndKeyRequired       (* "Name and public key are required" *)
  | NameRequired             (* "Name required" *)
  | EncryptionFailed (e : error)    (* "Encryption failed: " + err.message *)
  | FailedToAddContact (e : error)  (* "Failed to add contact: " + err.message *)
  | ContactAdded.            (* "Contact added successfully!" *)

(** How a handler ends, as its user sees it. *)
Inductive outcome : Type :=
  | Done                     (* ran to its end, nothing to report *)
  | Shown (text : string)    (* result written to its output element *)
  | ShownError (e : error)   (* err.message written to the output element *)
  | Alerted (a : alert)
  | Uncaught (e : error).    (* an exception left the handler *)

(** ** The JavaScript operations the script uses on values *)

(** [!v] is [negb (truthy v)]. *)
Definition truthy (v : value) : bool :=
  match v with
  | VUndefined | VNull => false
  | VBool b => b
  | VNum n => negb (n =? 0)
  | VStr s => negb (String.eqb s "")
  | VArr _ | VObj _ => true
  end.

Fixpoint assoc (k : string) (fields : list (string * value)) : value :=
  match fields with
  | [] => VUndefined
  | (k', v) :: rest => if String.eqb k k' then v else assoc k rest
  end.

(** [v.k] for a property name that no built-in prototype defines (the
    script reads [publicKey], [privateKey] and [name]). *)
Definition get_prop (v : value) (k : string) : result value :=
  match v with
  | VUndefined | VNull => Err TypeError
  | VObj fields => Ok (assoc k fields)
  | _ => Ok VUndefined
  end.

(** A string is kept as its UTF-8 encoding; JavaScript indexes it by
    UTF-16 code units.  A byte that starts a character counts for the one
    or two units of the character, a continuation byte for none. *)
Definition is_continuation (c : ascii) : bool :=
  (128 <=? N_of_ascii c)%N && (N_of_ascii c <? 192)%N.

Definition code_units (c : ascii) : nat :=
  if is_continuation c then 0 else if (N_of_ascii c <? 240)%N then 1 else 2.

Fixpoint continuation (s : string) : string :=
  match s with
  | String c r => if is_continuation c then String c (continuation r)
                  else EmptyString
  | EmptyString => EmptyString
  end.

(** [s[i]]: the character that holds code unit [i] (for a character of
    two units the script sees one half; it only ever reads a property of
    the result, which no string has). *)
Fixpoint string_index (i : nat) (s : string) : option string :=
  match s with
  | EmptyString => None
  | String c r =>
      if (i <? code_units c)%nat then Some (String c (continuation r))
      else string_index (i - code_units c) r
  end.

(** [v[i]] where [i] is the value of an option of the recipient selector,
    the decimal text of an index. *)
Definition get_index (v : value) (i : nat) : result value :=
  match v with
  | VUndefined | VNull => Err TypeError
  | VArr l => Ok (default VUndefined (l !! i))
  | VStr s => Ok (match string_index i s with
                  | Some c => VStr c
                  | None => VUndefined
                  end)
  | VObj fields => Ok (assoc (pretty i) fields)
  | _ => Ok VUndefined
  end.

(** [v.push(x)]: only arrays have the method. *)
Definition push (v x : value) : result value :=
  match v with
  | VArr l => Ok (VArr (l ++ [x]))
  | _ => Err TypeError
  end.

Fixpoint join (sep : string) (l : list string) : string :=
  match l with
  | [] => ""
  | [s] => s
  | s :: rest => s +:+ sep +:+ join sep rest
  end.

(** String conversion of a value that converts: what a template literal
    puts in its place. *)
Fixpoint js_String (v : value) : string :=
  match v with
  | VUndefined => "undefined"
  | VNull => "null"
  | VBool true => "true"
  | VBool false => "false"
  | VNum n => pretty n
  | VStr s => s
  | VArr l =>
      join "," (map (fun x => match x with
                              | VUndefined | VNull => ""
                              | _ => js_String x
                              end) l)
  | VObj _ => "[object Object]"
  end.

(** An object with a property [toString] of its own has lost the method
    (a property that came out of [JSON.parse] is never a function), and
    [valueOf] does not give a primitive: its conversion throws a
    TypeError.  An array converts its elements, null and undefined
    excepted. *)
Fixpoint not_convertible (v : value) : bool :=
  match v with
  | VObj fields => existsb (λ kv, String.eqb (fst kv) "toString") fields
  | VArr l => existsb not_convertible l
  | _ => false
  end.

(** [`${v}`] *)
Definition template_literal (v : value) : result string :=
  if not_convertible v then Err TypeError else Ok (js_String v).

(** [s.split(sep)] for a one-character separator: never empty. *)
Fixpoint split (sep : ascii) (s : string) : list string :=
  match s with
  | EmptyString => [EmptyString]
  | String c s' =>
      if Ascii.eqb c sep then EmptyString :: split sep s'
      else match split sep s' with
           | [] => [String c EmptyString]
           | p :: ps => String c p :: ps
           end
  end.

(** [s.trim()].  A string here is the UTF-8 encoding of the JavaScript
    string, so the white space and line terminators that [trim] removes
    are sequences of one, two or three bytes: U+0009 to U+000D and U+0020;
    U+00A0; U+1680, U+2000 to U+200A, U+2028, U+2029, U+202F, U+205F,
    U+3000 and U+FEFF. *)
Definition white_space1 (c : ascii) : bool := Ascii.is_space c.

Definition white_space2 (c1 c2 : ascii) : bool :=
  (N_of_ascii c1 =? 194)%N && (N_of_ascii c2 =? 160)%N.

Definition white_space3 (c1 c2 c3 : ascii) : bool :=
  let '(a, b, c) := (N_of_ascii c1, N_of_ascii c2, N_of_ascii c3) in
  ((a =? 225) && (b =? 154) && (c =? 128)
   || (a =? 226) && (b =? 128)
      && ((128 <=? c) && (c <=? 138) || (c =? 168) || (c =? 169) || (c =? 175))
   || (a =? 226) && (b =? 129) && (c =? 159)
   || (a =? 227) && (b =? 128) && (c =? 128)
   || (a =? 239) && (b =? 187) && (c =? 191))%N.

Fixpoint trim_start (s : string) : string :=
  match s with
  | EmptyString => EmptyString
  | String c1 r1 =>
      if white_space1 c1 then trim_start r1 else
      match r1 with
      | String c2 r2 =>
          if white_space2 c1 c2 then trim_start r2 else
          match r2 with
          | String c3 r3 => if white_space3 c1 c2 c3 then trim_start r3 else s
          | EmptyString => s
          end
      | EmptyString => s
      end
  end.

(** The string is cut at the first place from which only white space
    follows. *)
Fixpoint trim_end (s : string) : string :=
  match s with
  | EmptyString => EmptyString
  | String c r =>
      if String.eqb (trim_start s) "" then EmptyString else String c (trim_end r)
  end.

Definition trim (s : string) : string := trim_end (trim_start s).



(** ** What the script calls but does not define *)

Class Platform := {
  (** [JSON.parse] ([None]: it throws a SyntaxError) and [JSON.stringify] *)
  JSON_parse : string → option value;
  JSON_stringify : value → string;
  (** whether [localStorage.setItem k v] fits the quota *)
  storage_accepts : gmap string string → string → string → bool;
  (** libsodium; [None] stands for a thrown error *)
  crypto_box_NONCEBYTES : nat;
  to_base64 : bytes → string;
  from_base64 : string → option bytes;
  from_string : string → bytes;
  to_string : bytes → option string;
  crypto_box_easy : bytes → bytes → bytes → bytes → option bytes;
  crypto_box_open_easy : bytes → bytes → bytes → bytes → option bytes;
  (** the random generator behind [randombytes_buf] and [crypto_box_keypair] *)
  rng_state : Type;
  randombytes_buf : nat → rng_state → bytes * rng_state;
  crypto_box_keypair : rng_state → (bytes * bytes) * rng_state;
}.

(** The sizes of the keys (X25519) and of the authenticator (Poly1305) of
    [crypto_box]. *)
Definition crypto_box_PUBLICKEYBYTES : nat := 32.
Definition crypto_box_SECRETKEYBYTES : nat := 32.
Definition crypto_box_MACBYTES : nat := 16.

Section Script.
Context `{P : Platform}.

(** ** State and control flow *)

Record state := State {
  localStorage : gmap string string;
  csprng : rng_state;
}.

(** A computation of the script: it reads and writes the state and either
    returns or throws; a throw keeps the state reached so far. *)
Definition M (A : Type) : Type := state → result A * state.

Definition throw {A} (e : error) : M A := λ st, (Err e, st).

Global Instance M_ret : MRet M := λ A a st, (Ok a, st).
Global Instance M_bind : MBind M := λ A B f m st,
  match m st with
  | (Ok a, st') => f a st'
  | (Err e, st') => (Err e, st')
  end.

(** [try { m } catch (err) { h err }] *)
Definition try_catch {A} (m : M A) (h : error → M A) : M A := λ st,
  match m st with
  | (Ok a, st') => (Ok a, st')
  | (Err e, st') => h e st'
  end.

Definition lift {A} (r : result A) : M A := λ st, (r, st).

Definition getItem (k : string) : M (option string) := λ st,
  (Ok (localStorage st !! k), st).

Definition setItem (k v : string) : M unit := λ st,
  if storage_accepts (localStorage st) k v
  then (Ok (), State (<[k := v]> (localStorage st)) (csprng st))
  else (Err QuotaExceededError, st).

Definition JSON_parse_M (raw : string) : M value :=
  lift (match JSON_parse raw with Some v => Ok v | None => Err SyntaxError end).

(** The libsodium wrappers as the script calls them. *)
Definition sodium_from_base64 (v : value) : M bytes :=
  lift (match v with
        | VStr s => match from_base64 s with
                    | Some b => Ok b
                    | None => Err SodiumError
                    end
        | _ => Err TypeError
        end).

Definition sodium_randombytes_buf (n : nat) : M bytes := λ st,
  let '(b, g) := randombytes_buf n (csprng st) in
  (Ok b, State (localStorage st) g).

Definition sodium_crypto_box_keypair : M (bytes * bytes) := λ st,
  let '(kp, g) := crypto_box_keypair (csprng st) in
  (Ok kp, State (localStorage st) g).

(** The wrappers of the box check the lengths of nonce and keys (and that
    a box to open is as long as its authenticator) and throw a TypeError
    for a wrong one; any other failure is an [Error]. *)
Definition box_error (n pk sk : bytes) : error :=
  if bool_decide (length n = crypto_box_NONCEBYTES)
     && bool_decide (length pk = crypto_box_PUBLICKEYBYTES)
     && bool_decide (length sk = crypto_box_SECRETKEYBYTES)
  then SodiumError else TypeError.

Definition box_open_error (c n pk sk : bytes) : error :=
  if bool_decide (crypto_box_MACBYTES ≤ length c)%nat
  then box_error n pk sk else TypeError.

Definition sodium_crypto_box_easy (m n pk sk : bytes) : M bytes :=
  lift (match crypto_box_easy m n pk sk with
        | Some c => Ok c
        | None => Err (box_error n pk sk)
        end).

Definition sodium_crypto_box_open_easy (c n pk sk : bytes) : M bytes :=
  lift (match crypto_box_open_easy c n pk sk with
        | Some m => Ok m
        | None => Err (box_open_error c n pk sk)
        end).

Definition sodium_to_string (b : bytes) : M string :=
  lift (match to_string b with Some s => Ok s | None => Err TypeError end).

(** ** Helper functions *)

Definition keys_value (publicKey privateKey : bytes) : value :=
  VObj [("publicKey", VStr (to_base64 publicKey));
        ("privateKey", VStr (to_base64 privateKey))].

Definition generateKeyPair : M value :=
  keyPair ← sodium_crypto_box_keypair;
  mret (keys_value (fst keyPair) (snd keyPair)).

Definition saveMyKeys (keys : value) : M unit :=
  setItem "myKeys" (JSON_stringify keys).

Definition loadMyKeys : M value :=
  raw ← getItem "myKeys";
  match raw with
  | Some (String c s) => JSON_parse_M (String c s)
  | _ => mret VNull
  end.

Definition loadContacts : M value :=
  raw ← getItem "contacts";
  match raw with
  | Some (String c s) => JSON_parse_M (String c s)
  | _ => JSON_parse_M "[]"
  end.

Definition saveContacts (contacts : value) : M unit :=
  setItem "contacts" (JSON_stringify contacts).

(** ** Encryption (to recipient) *)

Definition encryptMessage (recipientPublicKeyBase64 : value) (message : string)
  : M string :=
  myKeys ← loadMyKeys;
  if negb (truthy myKeys) then throw NoLocalKeypair else
  recipientPublicKey ← sodium_from_base64 recipientPublicKeyBase64;
  nonce ← sodium_randombytes_buf crypto_box_NONCEBYTES;
  privateKeyB64 ← lift (get_prop myKeys "privateKey");
  privateKey ← sodium_from_base64 privateKeyB64;
  cipher ← sodium_crypto_box_easy (from_string message) nonce
             recipientPublicKey privateKey;
  publicKey ← lift (get_prop myKeys "publicKey");
  publicKeyText ← lift (template_literal publicKey);
  mret (publicKeyText +:+ ":" +:+ to_base64 nonce
          +:+ ":" +:+ to_base64 cipher).

(** ** Decryption *)

Definition decryptMessage (encryptedMessage : string) : M string :=
  myKeys ← loadMyKeys;
  if negb (truthy myKeys) then throw NoLocalKeypair else
  match split ":" encryptedMessage with
  | [senderPublicKeyB64; nonceB64; cipherB64] =>
      senderPublicKey ← sodium_from_base64 (VStr senderPublicKeyB64);
      nonce ← sodium_from_base64 (VStr nonceB64);
      cipher ← sodium_from_base64 (VStr cipherB64);
      try_catch
        (privateKeyB64 ← lift (get_prop myKeys "privateKey");
         privateKey ← sodium_from_base64 privateKeyB64;
         plaintext ← sodium_crypto_box_open_easy cipher nonce
                       senderPublicKey privateKey;
         sodium_to_string plaintext)
        (λ err, throw FailedToDecrypt)
  | _ => throw InvalidMessageFormat
  end.

(** ** Render functions

    Only what they read is modelled: a read can throw, the DOM updates
    cannot, and nothing here writes to [localStorage]. *)

Definition renderMyKey : M unit :=
  keys ← loadMyKeys;
  _ ← (if truthy keys then lift (get_prop keys "publicKey") else mret VUndefined);
  (* renderMyQr; a QR rendering error is caught by the promise *)
  _ ← loadMyKeys;
  mret ().

(** [v.forEach(f)]: only arrays have the method. *)
Definition forEach (v : value) (f : value → M unit) : M unit :=
  match v with
  | VArr l => foldr (λ c rest, _ ← f c; rest) (mret ()) l
  | _ => throw TypeError
  end.

Definition renderContacts : M unit :=
  contacts ← loadContacts;
  _ ← forEach contacts (λ c, _ ← lift (get_prop c "name"); mret ());
  forEach contacts (λ c, _ ← lift (get_prop c "name"); mret ()).

(** ** Button handlers

    A handler is modelled by what it reads from its inputs, what it does
    to the state and how it ends ([outcome]).  Writing to the page and to
    the clipboard, and starting or stopping the scanner, are taken not to
    throw and are left out. *)

(** Running a handler: an exception nobody catches ends it. *)
Definition handler (m : M outcome) : state → outcome * state := λ st,
  match m st with
  | (Ok o, st') => (o, st')
  | (Err e, st') => (Uncaught e, st')
  end.

Definition generateBtn_onclick : state → outcome * state :=
  handler (
    keys ← generateKeyPair;
    _ ← saveMyKeys keys;
    _ ← renderMyKey;
    mret Done).

Definition contact_value (name publicKey : string) : value :=
  VObj [("name", VStr name); ("publicKey", VStr publicKey)].

Definition addContactBtn_onclick (contactNameInput contactKeyInput : string)
  : state → outcome * state :=
  handler (
    let name := trim contactNameInput in
    let key := trim contactKeyInput in
    if negb (truthy (VStr name)) || negb (truthy (VStr key))
    then mret (Alerted NameAndKeyRequired) else
    contacts ← loadContacts;
    contacts ← lift (push contacts (contact_value name key));
    _ ← saveContacts contacts;
    _ ← renderContacts;
    mret Done).

(** [selectedIndex] is the value of the chosen option of the recipient
    selector: [None] for the placeholder option (empty value), [Some i] for
    the option rendered for contact [i]. *)
Definition encryptBtn_onclick (selectedIndex : option nat) (plainText : string)
  : state → outcome * state :=
  handler (
    match selectedIndex with
    | None => mret (Alerted SelectRecipientFirst)
    | Some i =>
        contacts ← loadContacts;
        contact ← lift (get_index contacts i);
        let message := trim plainText in
        if negb (truthy (VStr message)) then mret (Alerted TypeMessageFirst) else
        try_catch
          (publicKey ← lift (get_prop contact "publicKey");
           encrypted ← encryptMessage publicKey message;
           mret (Shown encrypted))
          (λ err, mret (Alerted (EncryptionFailed err)))
    end).

Definition decryptBtn_onclick (encryptedInput : string)
  : state → outcome * state :=
  handler (
    let encryptedText := trim encryptedInput in
    if negb (truthy (VStr encryptedText)) then mret (Alerted PasteMessageFirst) else
    try_catch
      (decrypted ← decryptMessage encryptedText;
       mret (Shown decrypted))
      (λ err, mret (ShownError err))).

(** ** QR scanning

    The callback the scanner runs on a decoded code; [promptResult] is what
    [prompt] returned, [None] when it was cancelled. *)
Definition scanQr_onDecoded (decodedText : string) (promptResult : option string)
  : state → outcome * state :=
  handler (
    try_catch
      (match promptResult with
       | Some (String c s) =>
           let name := String c s in
           contacts ← loadContacts;
           contacts ← lift (push contacts (contact_value name decodedText));
           _ ← saveContacts contacts;
           _ ← renderContacts;
           mret (Alerted ContactAdded)
       | _ => mret (Alerted NameRequired)
       end)
      (λ err, mret (Alerted (FailedToAddContact err)))).

End Script.

(** ** A reference platform

    An executable instance of [Platform], used to run the script on
    concrete inputs.  Base64 is libsodium's default variant (URL-safe
    alphabet, no padding, strict about unused trailing bits) and JSON is
    the standard syntax over [value]; the box and the random generator are
    stand-ins with the functional behaviour of the real ones and no
    secrecy: what is sealed opens under the matching keys, wrong lengths
    are refused, a box opens only under the nonce and the shared key it
    was sealed with, and the keys are read as X25519 reads them (the top
    bit of the last byte is ignored). *)
Module Reference.

(** *** Base64 *)

(** A sextet is kept in the low six bits of a character. *)
Definition sextet_char (s : ascii) : ascii :=
  let n := N_of_ascii s in
  if (n <? 26)%N then ascii_of_N (65 + n)
  else if (n <? 52)%N then ascii_of_N (71 + n)
  else if (n <? 62)%N then ascii_of_N (n - 4)
  else if (n =? 62)%N then "-"%char else "_"%char.

Definition char_sextet (c : ascii) : option ascii :=
  let n := N_of_ascii c in
  if (65 <=? n)%N && (n <=? 90)%N then Some (ascii_of_N (n - 65))
  else if (97 <=? n)%N && (n <=? 122)%N then Some (ascii_of_N (n - 71))
  else if (48 <=? n)%N && (n <=? 57)%N then Some (ascii_of_N (n + 4))
  else if (n =? 45)%N then Some (ascii_of_N 62)
  else if (n =? 95)%N then Some (ascii_of_N 63)
  else None.

Fixpoint base64_encode (bs : bytes) : string :=
  match bs with
  | [] => EmptyString
  | [Ascii a0 a1 a2 a3 a4 a5 a6 a7] =>
      String (sextet_char (Ascii a2 a3 a4 a5 a6 a7 false false))
     (String (sextet_char (Ascii false false false false a0 a1 false false))
      EmptyString)
  | [Ascii a0 a1 a2 a3 a4 a5 a6 a7; Ascii b0 b1 b2 b3 b4 b5 b6 b7] =>
      String (sextet_char (Ascii a2 a3 a4 a5 a6 a7 false false))
     (String (sextet_char (Ascii b4 b5 b6 b7 a0 a1 false false))
     (String (sextet_char (Ascii false false b0 b1 b2 b3 false false))
      EmptyString))
  | Ascii a0 a1 a2 a3 a4 a5 a6 a7 :: Ascii b0 b1 b2 b3 b4 b5 b6 b7
      :: Ascii c0 c1 c2 c3 c4 c5 c6 c7 :: rest =>
      String (sextet_char (Ascii a2 a3 a4 a5 a6 a7 false false))
     (String (sextet_char (Ascii b4 b5 b6 b7 a0 a1 false false))
     (String (sextet_char (Ascii c6 c7 b0 b1 b2 b3 false false))
     (String (sextet_char (Ascii c0 c1 c2 c3 c4 c5 false false))
      (base64_encode rest))))
  end.

Fixpoint base64_decode (s : string) : option bytes :=
  match s with
  | EmptyString => Some []
  | String _ EmptyString => None
  | String c1 (String c2 EmptyString) =>
      match char_sextet c1, char_sextet c2 with
      | Some (Ascii a2 a3 a4 a5 a6 a7 _ _),
        Some (Ascii false false false false a0 a1 _ _) =>
          Some [Ascii a0 a1 a2 a3 a4 a5 a6 a7]
      | _, _ => None
      end
  | String c1 (String c2 (String c3 EmptyString)) =>
      match char_sextet c1, char_sextet c2, char_sextet c3 with
      | Some (Ascii a2 a3 a4 a5 a6 a7 _ _),
        Some (Ascii b4 b5 b6 b7 a0 a1 _ _),
        Some (Ascii false false b0 b1 b2 b3 _ _) =>
          Some [Ascii a0 a1 a2 a3 a4 a5 a6 a7; Ascii b0 b1 b2 b3 b4 b5 b6 b7]
      | _, _, _ => None
      end
  | String c1 (String c2 (String c3 (String c4 rest))) =>
      match char_sextet c1, char_sextet c2, char_sextet c3, char_sextet c4,
            base64_decode rest with
      | Some (Ascii a2 a3 a4 a5 a6 a7 _ _),
        Some (Ascii b4 b5 b6 b7 a0 a1 _ _),
        Some (Ascii c6 c7 b0 b1 b2 b3 _ _),
        Some (Ascii c0 c1 c2 c3 c4 c5 _ _),
        Some bs =>
          Some (Ascii a0 a1 a2 a3 a4 a5 a6 a7 :: Ascii b0 b1 b2 b3 b4 b5 b6 b7
                  :: Ascii c0 c1 c2 c3 c4 c5 c6 c7 :: bs)
      | _, _, _, _, _ => None
      end
  end.

(** *** A stand-in for the box and for the random generator *)

Definition xor_ascii (a b : ascii) : ascii :=
  match a, b with
  | Ascii a0 a1 a2 a3 a4 a5 a6 a7, Ascii b0 b1 b2 b3 b4 b5 b6 b7 =>
      Ascii (xorb a0 b0) (xorb a1 b1) (xorb a2 b2) (xorb a3 b3)
            (xorb a4 b4) (xorb a5 b5) (xorb a6 b6) (xorb a7 b7)
  end.

Definition complement (k : bytes) : bytes := map (xor_ascii "255"%char) k.

Definition NONCEBYTES : nat := 24.
Definition KEYBYTES : nat := 32.

(** A key as the box reads it: without the top bit of its last byte. *)
Definition clear_top (a : ascii) : ascii :=
  match a with
  | Ascii a0 a1 a2 a3 a4 a5 a6 _ => Ascii a0 a1 a2 a3 a4 a5 a6 false
  end.

Definition clamp (k : bytes) : bytes := alter clear_top (pred KEYBYTES) k.

(** The public key of a private key, and the key two parties share. *)
Definition public_of (sk : bytes) : bytes := complement (clamp sk).
Definition shared_key (pk sk : bytes) : bytes :=
  zip_with xor_ascii (clamp (complement pk)) (clamp sk).

Definition box_args_ok (n pk sk : bytes) : bool :=
  bool_decide (length n = NONCEBYTES) && bool_decide (length pk = KEYBYTES)
  && bool_decide (length sk = KEYBYTES).

(** A box is the nonce, the shared key and the message written twice,
    three zero bytes in between; the repetition stands for the
    authenticator. *)
Definition separator : bytes := replicate 3 "000"%char.

Definition box_easy (m n pk sk : bytes) : option bytes :=
  if box_args_ok n pk sk
  then Some (n ++ shared_key pk sk ++ m ++ separator ++ m)
  else None.

Definition box_open_easy (c n pk sk : bytes) : option bytes :=
  if box_args_ok n pk sk
  then if bool_decide (take (NONCEBYTES + KEYBYTES) c = n ++ shared_key pk sk)
       then let body := drop (NONCEBYTES + KEYBYTES) c in
            let m := take ((length body - length separator) / 2)%nat body in
            if bool_decide (body = m ++ separator ++ m) then Some m else None
       else None
  else None.

(** The generator is a counter; a draw is the counter in little-endian
    bytes. *)
Fixpoint counter_bytes (n : nat) (g : N) : bytes :=
  match n with
  | O => []
  | S n' => ascii_of_N (g mod 256) :: counter_bytes n' (g / 256)
  end.

Definition random_bytes (n : nat) (g : N) : bytes * N :=
  (counter_bytes n g, N.succ g).

Definition box_keypair (g : N) : (bytes * bytes) * N :=
  let sk := counter_bytes KEYBYTES g in
  ((public_of sk, sk), N.succ g).

(** *** JSON *)

Definition dq : ascii := "034"%char.

Definition hex_digit (n : N) : ascii :=
  if (n <? 10)%N then ascii_of_N (48 + n) else ascii_of_N (87 + n).

Definition hex_value (c : ascii) : option N :=
  let n := N_of_ascii c in
  if (48 <=? n)%N && (n <=? 57)%N then Some (n - 48)%N
  else if (97 <=? n)%N && (n <=? 102)%N then Some (n - 87)%N
  else if (65 <=? n)%N && (n <=? 70)%N then Some (n - 55)%N
  else None.

Definition escape_char (c : ascii) : string :=
  let n := N_of_ascii c in
  if Ascii.eqb c dq then String "\" (String dq EmptyString)
  else if Ascii.eqb c "\" then "\\"
  else if (n =? 8)%N then "\b"
  else if (n =? 9)%N then "\t"
  else if (n =? 10)%N then "\n"
  else if (n =? 12)%N then "\f"
  else if (n =? 13)%N then "\r"
  else if (n <? 32)%N
       then "\u00" +:+ String (hex_digit (n / 16))
                        (String (hex_digit (n mod 16)) EmptyString)
  else String c EmptyString.

Fixpoint escape (s : string) : string :=
  match s with
  | EmptyString => EmptyString
  | String c r => escape_char c +:+ escape r
  end.

Definition quote (s : string) : string :=
  String dq (escape s +:+ String dq EmptyString).

(** [JSON.stringify]: an undefined array element prints as [null], an
    undefined property is left out. *)
Fixpoint json_print (v : value) : string :=
  match v with
  | VUndefined => "undefined"
  | VNull => "null"
  | VBool true => "true"
  | VBool false => "false"
  | VNum n => pretty n
  | VStr s => quote s
  | VArr l =>
      "[" +:+ join "," (map (fun x => match x with
                                      | VUndefined => "null"
                                      | _ => json_print x
                                      end) l) +:+ "]"
  | VObj fields =>
      "{" +:+ join ","
        ((fix members (fs : list (string * value)) : list string :=
            match fs with
            | [] => []
            | (k, VUndefined) :: rest => members rest
            | (k, x) :: rest => (quote k +:+ ":" +:+ json_print x) :: members rest
            end) fields) +:+ "}"
  end.

Fixpoint skip_ws (s : string) : string :=
  match s with
  | String c r =>
      let n := N_of_ascii c in
      if (n =? 32)%N || (n =? 9)%N || (n =? 10)%N || (n =? 13)%N
      then skip_ws r else s
  | EmptyString => EmptyString
  end.

Fixpoint strip_prefix (p s : string) : option string :=
  match p, s with
  | EmptyString, _ => Some s
  | String a p', String b s' => if Ascii.eqb a b then strip_prefix p' s' else None
  | String _ _, EmptyString => None
  end.

(** A code point below 0x10000 in UTF-8. *)
Definition utf8 (code : N) : string :=
  if (code <? 128)%N then String (ascii_of_N code) EmptyString
  else if (code <? 2048)%N
       then String (ascii_of_N (192 + code / 64))
           (String (ascii_of_N (128 + code mod 64)) EmptyString)
  else String (ascii_of_N (224 + code / 4096))
      (String (ascii_of_N (128 + (code / 64) mod 64))
      (String (ascii_of_N (128 + code mod 64)) EmptyString)).

Definition unescape (e : ascii) : option ascii :=
  if Ascii.eqb e dq then Some dq
  else if Ascii.eqb e "\" then Some "\"%char
  else if Ascii.eqb e "/" then Some "/"%char
  else if Ascii.eqb e "b" then Some "008"%char
  else if Ascii.eqb e "t" then Some "009"%char
  else if Ascii.eqb e "n" then Some "010"%char
  else if Ascii.eqb e "f" then Some "012"%char
  else if Ascii.eqb e "r" then Some "013"%char
  else None.

(** The rest of a string literal, after its opening quote. *)
Fixpoint read_string (s : string) : option (string * string) :=
  match s with
  | EmptyString => None
  | String c r =>
      if Ascii.eqb c dq then Some (EmptyString, r)
      else if Ascii.eqb c "\" then
        match r with
        | String "u" (String h1 (String h2 (String h3 (String h4 r')))) =>
            match hex_value h1, hex_value h2, hex_value h3, hex_value h4,
                  read_string r' with
            | Some d1, Some d2, Some d3, Some d4, Some (t, rest) =>
                Some (utf8 (((d1 * 16 + d2) * 16 + d3) * 16 + d4)%N +:+ t, rest)
            | _, _, _, _, _ => None
            end
        | String e r' =>
            match unescape e, read_string r' with
            | Some ch, Some (t, rest) => Some (String ch t, rest)
            | _, _ => None
            end
        | EmptyString => None
        end
      else if (N_of_ascii c <? 32)%N then None
      else match read_string r with
           | Some (t, rest) => Some (String c t, rest)
           | None => None
           end
  end.

Definition digit_value (c : ascii) : option N :=
  let n := N_of_ascii c in
  if (48 <=? n)%N && (n <=? 57)%N then Some (n - 48)%N else None.

Fixpoint read_digits (acc : N) (s : string) : N * string :=
  match s with
  | String c r =>
      match digit_value c with
      | Some d => read_digits (acc * 10 + d) r
      | None => (acc, s)
      end
  | EmptyString => (acc, EmptyString)
  end.

(** An integer literal; a fraction or an exponent is outside [value]. *)
Definition read_natural (s : string) : option (N * string) :=
  match s with
  | String c r =>
      match digit_value c with
      | Some d =>
          let '(n, rest) := read_digits d r in
          match r, d, rest with
          | String c' _, 0%N, _ =>
              match digit_value c' with Some _ => None | None =>
                match rest with
                | String "." _ | String "e" _ | String "E" _ => None
                | _ => Some (n, rest)
                end
              end
          | _, _, String "." _ | _, _, String "e" _ | _, _, String "E" _ => None
          | _, _, _ => Some (n, rest)
          end
      | None => None
      end
  | EmptyString => None
  end.

(** A repeated key keeps its place and takes the later value. *)
Fixpoint set_member (k : string) (v : value) (fs : list (string * value))
  : list (string * value) :=
  match fs with
  | [] => [(k, v)]
  | (k', v') :: rest =>
      if String.eqb k k' then (k, v) :: rest else (k', v') :: set_member k v rest
  end.

(** The properties of an object are listed with the array indices first,
    in ascending order, and the other keys after them as they came. *)
Definition index_key (k : string) : option N :=
  let '(n, rest) := read_digits 0 k in
  if String.eqb rest "" && String.eqb (pretty n) k && (n <? 4294967295)%N
  then Some n else None.

Fixpoint insert_index (n : N) (kv : string * value)
    (fs : list (N * (string * value))) : list (N * (string * value)) :=
  match fs with
  | [] => [(n, kv)]
  | (n', kv') :: rest =>
      if (n <? n')%N then (n, kv) :: fs else (n', kv') :: insert_index n kv rest
  end.

Definition order_keys (fs : list (string * value)) : list (string * value) :=
  map snd (foldr (λ kv acc, match index_key (fst kv) with
                            | Some n => insert_index n kv acc
                            | None => acc
                            end) [] fs)
  ++ filter (λ kv, index_key (fst kv) = None) fs.

Fixpoint parse_value (fuel : nat) (s : string) : option (value * string) :=
  match fuel with
  | O => None
  | S fuel' =>
      let elements :=
        fix elements (n : nat) (acc : list value) (s : string) :=
          match n with
          | O => None
          | S n' =>
              match parse_value fuel' s with
              | Some (v, r) =>
                  match skip_ws r with
                  | String "," r' => elements n' (acc ++ [v]) r'
                  | String "]" r' => Some (VArr (acc ++ [v]), r')
                  | _ => None
                  end
              | None => None
              end
          end in
      let members :=
        fix members (n : nat) (acc : list (string * value)) (s : string) :=
          match n with
          | O => None
          | S n' =>
              match skip_ws s with
              | String c r =>
                  if Ascii.eqb c dq then
                    match read_string r with
                    | Some (k, r1) =>
                        match skip_ws r1 with
                        | String ":" r2 =>
                            match parse_value fuel' r2 with
                            | Some (v, r3) =>
                                match skip_ws r3 with
                                | String "," r4 => members n' (set_member k v acc) r4
                                | String "}" r4 =>
                                    Some (VObj (order_keys (set_member k v acc)), r4)
                                | _ => None
                                end
                            | None => None
                            end
                        | _ => None
                        end
                    | None => None
                    end
                  else None
              | EmptyString => None
              end
          end in
      match skip_ws s with
      | EmptyString => None
      | String c r =>
          if Ascii.eqb c dq then
            match read_string r with
            | Some (t, rest) => Some (VStr t, rest)
            | None => None
            end
          else if Ascii.eqb c "[" then
            match skip_ws r with
            | String "]" r' => Some (VArr [], r')
            | _ => elements (String.length r) [] r
            end
          else if Ascii.eqb c "{" then
            match skip_ws r with
            | String "}" r' => Some (VObj [], r')
            | _ => members (String.length r) [] r
            end
          else if Ascii.eqb c "-" then
            match read_natural r with
            | Some (n, rest) => Some (VNum (- Z.of_N n), rest)
            | None => None
            end
          else
            match strip_prefix "null" (String c r), strip_prefix "true" (String c r),
                  strip_prefix "false" (String c r) with
            | Some rest, _, _ => Some (VNull, rest)
            | _, Some rest, _ => Some (VBool true, rest)
            | _, _, Some rest => Some (VBool false, rest)
            | _, _, _ =>
                match read_natural (String c r) with
                | Some (n, rest) => Some (VNum (Z.of_N n), rest)
                | None => None
                end
            end
      end
  end.

(** [JSON.parse]: one value, then nothing but white space. *)
Definition json_read (s : string) : option value :=
  match parse_value (S (String.length s)) s with
  | Some (v, rest) =>
      match skip_ws rest with
      | EmptyString => Some v
      | _ => None
      end
  | None => None
  end.

(** *** The instance *)

(** [localStorage] holds about five million characters per origin. *)
Definition quota : N := 5242880.

Definition fits (store : gmap string string) (k v : string) : bool :=
  (N.of_nat (String.length k) + N.of_nat (String.length v) <=? quota)%N.

Definition utf8_bytes (s : string) : bytes := String.list_ascii_of_string s.
Definition utf8_string (b : bytes) : option string :=
  Some (String.string_of_list_ascii b).

#[export] Instance platform : Platform := {|
  JSON_parse := json_read;
  JSON_stringify := json_print;
  storage_accepts := fits;
  crypto_box_NONCEBYTES := NONCEBYTES;
  to_base64 := base64_encode;
  from_base64 := base64_decode;
  from_string := utf8_bytes;
  to_string := utf8_string;
  crypto_box_easy := box_easy;
  crypto_box_open_easy := box_open_easy;
  rng_state := N;
  randombytes_buf := random_bytes;
  crypto_box_keypair := box_keypair;
|}.

End Reference.

(** ** What the script relies on

    The functional behaviour of libsodium that the envelope depends on:
    base64 decodes what it encoded and never produces the separator, text
    survives its UTF-8 round trip, a draw has the length asked for, and a
    box sealed for a recipient opens under the recipient's private key and
    the sender's public key. *)

Definition is_keypair `{P : Platform} (pk sk : bytes) : Prop :=
  ∃ g, fst (crypto_box_keypair g) = (pk, sk).

Class SodiumLaws (P : Platform) : Prop := {
  base64_roundtrip : ∀ b, from_base64 (to_base64 b) = Some b;
  base64_no_colon : ∀ b, split ":" (to_base64 b) = [to_base64 b];
  string_roundtrip : ∀ s, to_string (from_string s) = Some s;
  randombytes_length : ∀ n g, length (fst (randombytes_buf n g)) = n;
  box_roundtrip : ∀ m n pkA skA pkB skB,
    is_keypair pkA skA → is_keypair pkB skB →
    length n = crypto_box_NONCEBYTES →
    ∃ c, crypto_box_easy m n pkB skA = Some c
         ∧ crypto_box_open_easy c n pkA skB = Some m;
}.




(** [JSON.stringify] writes something for [v] and [JSON.parse] reads it
    back. *)
Definition json_faithful `{P : Platform} (v : value) : Prop :=
  JSON_stringify v ≠ "" ∧ JSON_parse (JSON_stringify v) = Some v.

(** The identity slot of [st] holds the key pair [(pk, sk)], as
    [saveMyKeys (generateKeyPair ())] leaves it. *)
Definition has_identity `{P : Platform} (st : state) (pk sk : bytes) : Prop :=
  fst (loadMyKeys st) = Ok (keys_value pk sk).

(** The identity slot holds something truthy, so the check for a local
    key pair passes. *)
Definition identity_present `{P : Platform} (st : state) (myKeys : value) : Prop :=
  fst (loadMyKeys st) = Ok myKeys ∧ truthy myKeys = true.

(** The private key as [decryptMessage] decodes it inside its [try]. *)
Definition stored_private_key `{P : Platform} (myKeys : value) : option bytes :=
  match get_prop myKeys "privateKey" with
  | Ok (VStr s) => from_base64 s
  | _ => None
  end.

(** What the [try] block of [decryptMessage] computes: [None] when any
    step in it throws. *)
Definition opens_to `{P : Platform} (myKeys : value) (ct n spk : bytes) : option string :=
  sk ← stored_private_key myKeys;
  plain ← crypto_box_open_easy ct n spk sk;
  to_string plain.

(** The state after the contact list [l] extended by [c] has been saved. *)
Definition persisted `{P : Platform} (st : state) (l : list value) (c : value)
  : state :=
  State (<["contacts" := JSON_stringify (VArr (l ++ [c]))]> (localStorage st))
        (csprng st).

(** ** A run of the script

    Three devices on the reference platform.  Each starts with an empty
    [localStorage] and its generator at its own position, and generates
    its key pair with the "generate keys" button; Alice then adds Bob by
    the form, with the public key Bob's page shows. *)
Module Scenario.
Import Reference.

Definition device (seed : N) : state := State ∅ seed.

Definition alice_alone : state := snd (generateBtn_onclick (device 1)).
Definition bob : state := snd (generateBtn_onclick (device 2)).
Definition carol : state := snd (generateBtn_onclick (device 3)).

Definition skA : bytes := counter_bytes KEYBYTES 1.
Definition pkA : bytes := public_of skA.
Definition skB : bytes := counter_bytes KEYBYTES 2.
Definition pkB : bytes := public_of skB.

Definition bob_public_key : string :=
  "_f________________________________________8".

Definition alice : state :=
  snd (addContactBtn_onclick " Bob " bob_public_key alice_alone).

(** What Alice's page shows when she encrypts "hello" for Bob. *)
Definition hello_for_bob : string :=
  "_v________________________________________8:AgAAAAAAAAAAAAAAAAAAAAAAAAAAAAAA:AgAAAAAAAAAAAAAAAAAAAAAAAAAAAAAAAwAAAAAAAAAAAAAAAAAAAAAAAAAAAAAAAAAAAAAAAABoZWxsbwAAAGhlbGxv".

(** The public key Carol's page shows. *)
Definition carol_public_key : string :=
  "_P________________________________________8".

(** A device on which Bob was added as a contact and no keys were ever
    generated. *)
Definition visitor : state :=
  snd (addContactBtn_onclick "Bob" bob_public_key (device 4)).

(** U+00A0 (no-break space) and U+FEFF (byte order mark) in UTF-8. *)
Definition nbsp : string := String "194" (String "160" "").
Definition bom : string := String "239" (String "187" (String "191" "")).

(** A device whose contact slot was written by something else. *)
Definition with_contacts (raw : string) (st : state) : state :=
  State (<["contacts" := raw]> (localStorage st)) (csprng st).

Definition with_identity (raw : string) (st : state) : state :=
  State (<["myKeys" := raw]> (localStorage st)) (csprng st).

End Scenario.

(** ** The page as a whole *)

(** What [init] does once libsodium is ready, after it has installed the
    handlers: the initial render. *)
Definition init `{P : Platform} : M unit :=
  _ ← renderMyKey;
  renderContacts.

(** An entry of the contact list as the script writes it. *)
Definition is_contact (c : value) : Prop :=
  ∃ name publicKey, c = contact_value name publicKey.

(** A store as the script itself leaves it: the identity slot is empty or
    holds a generated pair, the contact slot is empty or holds a list of
    contacts. *)
Definition well_formed `{P : Platform} (st : state) : Prop :=
  (fst (loadMyKeys st) = Ok VNull ∨ ∃ pk sk, has_identity st pk sk)
  ∧ ∃ l, fst (loadContacts st) = Ok (VArr l) ∧ Forall is_contact l.

(** A value [renderContacts] can list: an array without null entries. *)
Definition renderable (v : value) : Prop :=
  ∃ l, v = VArr l ∧ Forall (λ c, c ≠ VNull ∧ c ≠ VUndefined) l.

(** The state after the identity [(pk, sk)] has been saved, the generator
    left at [g]. *)
Definition regenerated `{P : Platform} (st : state) (pk sk : bytes)
    (g : rng_state) : state :=
  State (<["myKeys" := JSON_stringify (keys_value pk sk)]> (localStorage st)) g.

(** ** The scanner button

    The page keeps the scanner in the variable [html5QrCode].  Scanner
    objects are told apart by the order in which they were constructed.
    [stop()] is taken to return its promise, as the script expects; the
    callback the script attaches to it, [() => html5QrCode.clear()], runs
    later, when the promise settles, and reads the variable then. *)
Record page `{P : Platform} := Page {
  device : state;
  html5QrCode : option nat;   (* the scanner the variable holds, if any *)
  constructed : nat;          (* scanners constructed so far *)
  stopped : list nat;         (* scanners [stop()] was called on *)
  pending : list nat;         (* stopped scanners whose callback has not run *)
}.
Arguments Page {P} device html5QrCode constructed stopped pending.

(** [html5QrCode.stop().then(() => html5QrCode.clear()); html5QrCode = null] *)
Definition stop_scanner `{P : Platform} (s : nat) (st : state) (p : page) : page :=
  Page st None (constructed p) (s :: stopped p) (pending p ++ [s]).

Definition scanQrBtn_onclick `{P : Platform} (p : page) : page :=
  match html5QrCode p with
  | Some s => stop_scanner s (device p) p
  | None =>
      Page (device p) (Some (constructed p)) (S (constructed p))
           (stopped p) (pending p)
  end.

(** The callback of a running scanner, with what it does to the scanner
    after a contact was added. *)
Definition scanner_onDecoded `{P : Platform} (decodedText : string)
    (promptResult : option string) (s : nat) (p : page) : outcome * page :=
  let '(o, st) := scanQr_onDecoded decodedText promptResult (device p) in
  match o with
  | Alerted ContactAdded => (o, stop_scanner s st p)
  | _ => (o, Page st (html5QrCode p) (constructed p) (stopped p) (pending p))
  end.

(** What the callback attached to [stop()] does when it runs. *)
Inductive cleanup : Type :=
  | CleanupTypeError       (* the variable holds null *)
  | Cleared (s : nat).     (* [clear()] called on the scanner it holds *)

Definition run_cleanup `{P : Platform} (p : page) : cleanup :=
  match html5QrCode p with
  | None => CleanupTypeError
  | Some s => Cleared s
  end.

(** What can happen to the page, one thing at a time. *)
Inductive event : Type :=
  | ClickScan
  | Decoded (decodedText : string) (promptResult : option string)
  | Settle (i : nat).      (* the promise of the [i]-th pending stop settles *)

(** One event; [None] when it cannot happen (no scanner to decode, no such
    pending promise).  A settled promise yields the scanner that was
    stopped and what its callback did. *)
Definition step `{P : Platform} (e : event) (p : page)
  : option (list (nat * cleanup) * page) :=
  match e with
  | ClickScan => Some ([], scanQrBtn_onclick p)
  | Decoded decodedText promptResult =>
      match html5QrCode p with
      | Some s => Some ([], snd (scanner_onDecoded decodedText promptResult s p))
      | None => None
      end
  | Settle i =>
      match pending p !! i with
      | Some s =>
          Some ([(s, run_cleanup p)],
                Page (device p) (html5QrCode p) (constructed p) (stopped p)
                     (delete i (pending p)))
      | None => None
      end
  end.

Fixpoint run `{P : Platform} (events : list event) (p : page)
  : option (list (nat * cleanup) * page) :=
  match events with
  | [] => Some ([], p)
  | e :: rest =>
      match step e p with
      | Some (seen, p') =>
          match run rest p' with
          | Some (seen', p'') => Some (seen ++ seen', p'')
          | None => None
          end
      | None => None
      end
  end.

(** The page as [init] leaves it. *)
Definition loaded `{P : Platform} (st : state) : page := Page st None 0 [] [].

(** What holds of the scanner variable on every page that can be reached. *)
Definition scanner_invariant `{P : Platform} (p : page) : Prop :=
  (∀ s, html5QrCode p = Some s → (s < constructed p)%nat ∧ s ∉ stopped p)
  ∧ (∀ s, s ∈ stopped p → (s < constructed p)%nat)
  ∧ (∀ s, s ∈ pending p → s ∈ stopped p).

(** * Properties *)

(** ** The reference platform obeys the laws *)
Module ReferenceFacts.
Import Reference.

Lemma char_sextet_char x0 x1 x2 x3 x4 x5 :
  char_sextet (sextet_char (Ascii x0 x1 x2 x3 x4 x5 false false))
  = Some (Ascii x0 x1 x2 x3 x4 x5 false false).
Proof. destruct x0, x1, x2, x3, x4, x5; reflexivity. Qed.

Lemma sextet_char_not_colon x0 x1 x2 x3 x4 x5 :
  Ascii.eqb (sextet_char (Ascii x0 x1 x2 x3 x4 x5 false false)) ":" = false.
Proof. destruct x0, x1, x2, x3, x4, x5; reflexivity. Qed.

(** Induction on a byte string three bytes at a time. *)
Lemma bytes_ind3 (Q : bytes → Prop) :
  Q [] → (∀ a, Q [a]) → (∀ a b, Q [a; b]) →
  (∀ a b c rest, Q rest → Q (a :: b :: c :: rest)) →
  ∀ bs, Q bs.
Proof.
  intros H0 H1 H2 H3.
  assert (∀ bs, Q bs ∧ (∀ a, Q (a :: bs)) ∧ (∀ a b, Q (a :: b :: bs))) as H.
  { induction bs as [|x bs (IH0 & IH1 & IH2)]; [by auto|].
    split_and!; [apply IH1 | intros; apply IH2 | intros; by apply H3]. }
  intros bs. apply H.
Qed.

Lemma base64_decode_encode bs : base64_decode (base64_encode bs) = Some bs.
Proof.
  induction bs as [|a|a b|a b c rest IH] using bytes_ind3.
  - reflexivity.
  - destruct a. cbn [base64_encode base64_decode].
    by rewrite !char_sextet_char.
  - destruct a, b. cbn [base64_encode base64_decode].
    by rewrite !char_sextet_char.
  - destruct a, b, c. cbn [base64_encode base64_decode].
    by rewrite !char_sextet_char, IH.
Qed.

Lemma base64_encode_no_colon bs :
  split ":" (base64_encode bs) = [base64_encode bs].
Proof.
  induction bs as [|a|a b|a b c rest IH] using bytes_ind3.
  - reflexivity.
  - destruct a. cbn [base64_encode split].
    by rewrite !sextet_char_not_colon.
  - destruct a, b. cbn [base64_encode split].
    by rewrite !sextet_char_not_colon.
  - destruct a, b, c. cbn [base64_encode split].
    by rewrite !sextet_char_not_colon, IH.
Qed.

Lemma counter_bytes_length n g : length (counter_bytes n g) = n.
Proof. revert g. induction n as [|n IH]; intros g; [done|]. cbn. by rewrite IH. Qed.

Lemma xor_ascii_comm a b : xor_ascii a b = xor_ascii b a.
Proof. destruct a, b. cbn. f_equal; apply xorb_comm. Qed.

Lemma complement_involutive k : complement (complement k) = k.
Proof.
  unfold complement. induction k as [|[[][][][][][][][]] k IH]; [done|..];
    cbn; by rewrite IH.
Qed.

Lemma complement_length k : length (complement k) = length k.
Proof. apply length_map. Qed.

Lemma clear_top_idempotent a : clear_top (clear_top a) = clear_top a.
Proof. by destruct a. Qed.

Lemma clamp_idempotent k : clamp (clamp k) = clamp k.
Proof.
  unfold clamp. rewrite list_alter_alter_eq. apply list_alter_ext; [|done].
  intros a _. apply clear_top_idempotent.
Qed.

Lemma clamp_length k : length (clamp k) = length k.
Proof. apply length_alter. Qed.

Lemma zip_with_xor_comm a b : zip_with xor_ascii a b = zip_with xor_ascii b a.
Proof.
  revert b. induction a as [|x a IH]; intros [|y b]; [done..|].
  cbn. by rewrite IH, xor_ascii_comm.
Qed.




Lemma shared_key_symmetric skA skB :
  shared_key (public_of skB) skA = shared_key (public_of skA) skB.
Proof.
  unfold shared_key, public_of.
  by rewrite !complement_involutive, !clamp_idempotent, zip_with_xor_comm.
Qed.

Lemma shared_key_length pk sk :
  length pk = KEYBYTES → length sk = KEYBYTES →
  length (shared_key pk sk) = KEYBYTES.
Proof.
  intros Hpk Hsk. unfold shared_key.
  rewrite length_zip_with, !clamp_length, complement_length. lia.
Qed.

Lemma keypair_inv pk sk :
  is_keypair pk sk →
  pk = public_of sk ∧ length sk = KEYBYTES ∧ length pk = KEYBYTES.
Proof.
  intros [g Hg].
  change (fst (crypto_box_keypair g))
    with (public_of (counter_bytes KEYBYTES g), counter_bytes KEYBYTES g) in Hg.
  apply pair_equal_spec in Hg as [<- <-].
  unfold public_of.
  by rewrite complement_length, clamp_length, counter_bytes_length.
Qed.



Lemma box_open_sealed m n pkA skA pkB skB :
  is_keypair pkA skA → is_keypair pkB skB → length n = NONCEBYTES →
  box_open_easy (n ++ shared_key pkB skA ++ m ++ separator ++ m) n pkA skB
  = Some m.
Proof.
  intros (-> & HskA & HpkA)%keypair_inv (-> & HskB & HpkB)%keypair_inv Hn.
  unfold box_open_easy, box_args_ok.
  rewrite !bool_decide_eq_true_2 by done. cbn [andb].
  rewrite shared_key_symmetric.
  pose proof (shared_key_length _ _ HpkA HskB) as Hk.
  rewrite app_assoc.
  rewrite take_app_length', drop_app_length' by (rewrite length_app; lia).
  rewrite bool_decide_eq_true_2 by done. cbn zeta.
  replace ((length (m ++ separator ++ m) - length separator) / 2)%nat
    with (length m).
  - rewrite take_app_length. by rewrite bool_decide_eq_true_2.
  - rewrite !length_app. cbn [separator replicate length].
    replace (length m + (3 + length m) - 3)%nat with (length m * 2)%nat by lia.
    by rewrite Nat.div_mul.
Qed.

Lemma laws : SodiumLaws platform.
Proof.
  split.
  - apply base64_decode_encode.
  - apply base64_encode_no_colon.
  - intros s. cbn. unfold utf8_string, utf8_bytes.
    by rewrite String.string_of_list_ascii_of_string.
  - intros n g. cbn. apply counter_bytes_length.
  - intros m n pkA skA pkB skB HA HB Hn. cbn in Hn |- *.
    exists (n ++ shared_key pkB skA ++ m ++ separator ++ m). split.
    + destruct (keypair_inv _ _ HA) as (_ & HskA & _).
      destruct (keypair_inv _ _ HB) as (_ & _ & HpkB).
      unfold box_easy, box_args_ok.
      by rewrite !bool_decide_eq_true_2.
    + by apply box_open_sealed.
Qed.

(** *** Base64 is canonical *)









End ReferenceFacts.

(** ** The script on any platform *)
Section Properties.
Context `{P : Platform}.

Ltac unfold_M :=
  repeat progress
    unfold mbind, M_bind, mret, M_ret, lift, throw, try_catch, getItem,
      JSON_parse_M, sodium_from_base64, sodium_randombytes_buf,
      sodium_crypto_box_easy, sodium_crypto_box_open_easy, sodium_to_string.

(** *** Strings *)

Lemma split_not_nil sep s : split sep s ≠ [].
Proof.
  destruct s as [|c s]; cbn; [done|].
  destruct (Ascii.eqb c sep); [done|]. by destruct (split sep s).
Qed.

Lemma split_app sep s1 s2 :
  split sep s1 = [s1] →
  split sep (s1 +:+ String sep s2) = s1 :: split sep s2.
Proof.
  induction s1 as [|c s1 IH]; intros Hs1.
  - change (split sep (String sep s2) = [""] ++ split sep s2).
    cbn. by rewrite Ascii.eqb_refl.
  - change (String c s1 +:+ String sep s2) with (String c (s1 +:+ String sep s2)).
    cbn in Hs1 |- *. destruct (Ascii.eqb c sep); [done|].
    destruct (split sep s1) as [|p ps] eqn:Hsplit; [by destruct (split_not_nil sep s1)|].
    injection Hs1 as -> ->. by rewrite IH.
Qed.

Lemma split_token sep a b c :
  split sep a = [a] → split sep b = [b] → split sep c = [c] →
  split sep (a +:+ String sep EmptyString +:+ b +:+ String sep EmptyString +:+ c)
  = [a; b; c].
Proof.
  intros Ha Hb Hc.
  change (String sep EmptyString +:+ b +:+ String sep EmptyString +:+ c)
    with (String sep (b +:+ String sep c)).
  by rewrite !split_app, Hc.
Qed.

(** *** Loading never writes *)

Lemma loadMyKeys_state st : snd (loadMyKeys st) = st.
Proof.
  unfold loadMyKeys. unfold_M.
  destruct (localStorage st !! "myKeys") as [[|c s]|]; cbn; done.
Qed.

Lemma loadContacts_state st : snd (loadContacts st) = st.
Proof.
  unfold loadContacts. unfold_M.
  destruct (localStorage st !! "contacts") as [[|c s]|]; cbn; done.
Qed.

Lemma loadMyKeys_eq st : loadMyKeys st = (fst (loadMyKeys st), st).
Proof. rewrite <- (loadMyKeys_state st) at 3. by destruct (loadMyKeys st). Qed.

Lemma loadContacts_eq st : loadContacts st = (fst (loadContacts st), st).
Proof. rewrite <- (loadContacts_state st) at 3. by destruct (loadContacts st). Qed.

(** *** Sealing and opening *)

(** What [encryptMessage] returns for a stored identity [(pkA, skA)]: the
    drawn nonce and the box sealed under it, behind the sender's key. *)
Lemma encryptMessage_sealed st pkA skA pkB message nonce g cipher :
  (∀ b, from_base64 (to_base64 b) = Some b) →
  has_identity st pkA skA →
  randombytes_buf crypto_box_NONCEBYTES (csprng st) = (nonce, g) →
  crypto_box_easy (from_string message) nonce pkB skA = Some cipher →
  encryptMessage (VStr (to_base64 pkB)) message st
  = (Ok (to_base64 pkA +:+ ":" +:+ to_base64 nonce +:+ ":" +:+ to_base64 cipher),
     State (localStorage st) g).
Proof.
  intros Hb64 Hid Hrand Hbox. unfold encryptMessage.
  unfold mbind at 1. unfold M_bind at 1.
  rewrite loadMyKeys_eq, Hid. cbn [keys_value truthy negb].
  unfold_M. rewrite Hb64. cbn. rewrite Hrand. cbn. rewrite Hb64, Hbox. done.
Qed.

(** What [decryptMessage] returns on a well-formed token whose box opens. *)
Lemma decryptMessage_opened st pk sk spk nonce cipher plain text :
  (∀ b, from_base64 (to_base64 b) = Some b) →
  (∀ b, split ":" (to_base64 b) = [to_base64 b]) →
  has_identity st pk sk →
  crypto_box_open_easy cipher nonce spk sk = Some plain →
  to_string plain = Some text →
  decryptMessage
    (to_base64 spk +:+ ":" +:+ to_base64 nonce +:+ ":" +:+ to_base64 cipher) st
  = (Ok text, st).
Proof.
  intros Hb64 Hcolon Hid Hopen Htext. unfold decryptMessage.
  unfold mbind at 1. unfold M_bind at 1.
  rewrite loadMyKeys_eq, Hid. cbn [keys_value truthy negb].
  rewrite split_token by apply Hcolon.
  unfold_M. rewrite !Hb64. cbn. rewrite Hb64, Hopen, Htext. done.
Qed.

(** C1. Round trip: a message sealed by [encryptMessage] under Alice's
    identity for Bob's public key is recovered exactly by [decryptMessage]
    under Bob's identity, for every plaintext and all key pairs. *)
Theorem encrypt_decrypt_roundtrip `{!SodiumLaws P}
    (alice bob : state) (pkA skA pkB skB : bytes) (plaintext : string) :
  is_keypair pkA skA → is_keypair pkB skB →
  has_identity alice pkA skA → has_identity bob pkB skB →
  ∃ token alice',
    encryptMessage (VStr (to_base64 pkB)) plaintext alice = (Ok token, alice')
    ∧ decryptMessage token bob = (Ok plaintext, bob).
Proof.
  intros HA HB HidA HidB.
  destruct (randombytes_buf crypto_box_NONCEBYTES (csprng alice))
    as [nonce g] eqn:Hrand.
  assert (length nonce = crypto_box_NONCEBYTES) as Hlen.
  { pose proof (randombytes_length crypto_box_NONCEBYTES (csprng alice)) as Hl.
    by rewrite Hrand in Hl. }
  destruct (box_roundtrip (from_string plaintext) nonce pkA skA pkB skB HA HB Hlen)
    as (cipher & Hseal & Hopen).
  eexists _, _. split.
  - apply (encryptMessage_sealed _ pkA skA); eauto using base64_roundtrip.
  - apply (decryptMessage_opened _ pkB skB) with (plain := from_string plaintext);
      eauto using base64_roundtrip, base64_no_colon, string_roundtrip.
Qed.

(** *** Absent identity *)

Lemma loadMyKeys_absent st :
  localStorage st !! "myKeys" = None → loadMyKeys st = (Ok VNull, st).
Proof. intros Hnone. unfold loadMyKeys. unfold_M. by rewrite Hnone. Qed.

(** *** The envelope check of [decryptMessage] *)

Lemma decryptMessage_parts st myKeys token :
  identity_present st myKeys →
  decryptMessage token st =
  match split ":" token with
  | [a; b; c] =>
      match from_base64 a, from_base64 b, from_base64 c with
      | Some spk, Some n, Some ct =>
          match opens_to myKeys ct n spk with
          | Some text => (Ok text, st)
          | None => (Err FailedToDecrypt, st)
          end
      | _, _, _ => (Err SodiumError, st)
      end
  | _ => (Err InvalidMessageFormat, st)
  end.
Proof.
  intros [Hload Htruthy]. unfold decryptMessage.
  unfold mbind at 1. unfold M_bind at 1.
  rewrite loadMyKeys_eq, Hload, Htruthy. cbn [negb].
  destruct (split ":" token) as [|a [|b [|c [|d parts]]]]; try done.
  unfold_M. unfold opens_to, stored_private_key.
  destruct (from_base64 a) as [spk|]; [|done].
  destruct (from_base64 b) as [n|]; [|done].
  destruct (from_base64 c) as [ct|]; [|done].
  destruct (get_prop myKeys "privateKey") as [[]|]; cbn; try done.
  destruct (from_base64 s) as [sk|]; cbn; [|done].
  destruct (crypto_box_open_easy ct n spk sk) as [plain|]; cbn; [|done].
  by destruct (to_string plain).
Qed.

(** C3, as the script has it.  With a local key pair present,
    [decryptMessage] fails with "Invalid message format" exactly when
    splitting on [:] does not give three parts.  A three-part token with a
    field that is not base64 fails with the decoder's own error, and one
    whose fields all decode goes on to the box and can only succeed or
    fail with "Failed to decrypt". *)
Theorem malformed_envelope_is_part_count (st : state) (myKeys : value)
    (token : string) :
  identity_present st myKeys →
  (fst (decryptMessage token st) = Err InvalidMessageFormat
     ↔ length (split ":" token) ≠ 3%nat)
  ∧ (∀ a b c, split ":" token = [a; b; c] →
       (from_base64 a = None ∨ from_base64 b = None ∨ from_base64 c = None) →
       decryptMessage token st = (Err SodiumError, st))
  ∧ (∀ a b c, split ":" token = [a; b; c] →
       is_Some (from_base64 a) → is_Some (from_base64 b) →
       is_Some (from_base64 c) →
       (∃ text, decryptMessage token st = (Ok text, st))
       ∨ decryptMessage token st = (Err FailedToDecrypt, st)).
Proof.
  intros Hid. rewrite (decryptMessage_parts st myKeys token Hid).
  split_and!.
  - destruct (split ":" token) as [|a [|b [|c [|d parts]]]]; cbn;
      try (split; [intros _; lia | done]).
    split; [|lia].
    destruct (from_base64 a), (from_base64 b), (from_base64 c); try done.
    by destruct (opens_to _ _ _ _).
  - intros a b c -> Hbad.
    destruct (from_base64 a), (from_base64 b), (from_base64 c); try done.
    by destruct Hbad as [?|[?|?]].
  - intros a b c -> [spk ->] [n ->] [ct ->].
    destruct (opens_to _ _ _ _); eauto.
Qed.

(** *** A token with a changed field *)








(** *** Stored records that do not parse *)

(** C9, as the script has it.  A stored record that [JSON.parse] rejects
    makes [loadMyKeys] and [loadContacts] fail with the parser's own
    SyntaxError, passed on as it is; a record that parses is returned
    whatever its shape. *)
Theorem corrupt_record_is_syntax_error (st : state) (raw : string) :
  raw ≠ "" →
  (localStorage st !! "myKeys" = Some raw →
     loadMyKeys st = (match JSON_parse raw with
                      | Some v => Ok v
                      | None => Err SyntaxError
                      end, st))
  ∧ (localStorage st !! "contacts" = Some raw →
     loadContacts st = (match JSON_parse raw with
                        | Some v => Ok v
                        | None => Err SyntaxError
                        end, st)).
Proof.
  intros Hraw. destruct raw as [|c s]; [done|].
  split; intros Hslot; [unfold loadMyKeys | unfold loadContacts];
    unfold_M; by rewrite Hslot.
Qed.

(** *** Appending a contact *)

Lemma forEach_state v (f : value → M unit) st :
  (∀ c st', snd (f c st') = st') → snd (forEach v f st) = st.
Proof.
  intros Hf. destruct v; try done. cbn.
  induction l as [|c l IH]; cbn; [done|].
  unfold_M. specialize (Hf c st). destruct (f c st) as [[[]|e] st']; cbn in *;
    by subst.
Qed.

Lemma renderContacts_state st : snd (renderContacts st) = st.
Proof.
  unfold renderContacts. unfold mbind at 1. unfold M_bind at 1.
  rewrite loadContacts_eq. destruct (fst (loadContacts st)) as [contacts|e]; [|done].
  assert (∀ c st', snd ((_ ← lift (get_prop c "name"); mret ()) st') = st') as Hf.
  { intros c st'. unfold_M. by destruct (get_prop c "name"). }
  unfold mbind at 1. unfold M_bind at 1.
  pose proof (forEach_state contacts _ st Hf) as H1.
  destruct (forEach contacts _ st) as [[[]|e] st1]; cbn in H1; subst; [|done].
  by apply forEach_state.
Qed.

Lemma renderContacts_eq st : renderContacts st = (fst (renderContacts st), st).
Proof. rewrite <- (renderContacts_state st) at 3. by destruct (renderContacts st). Qed.

(** Load, push, save: the list is written once, whole, or not at all. *)
Lemma appending {A} st c (k : M A) :
  (contacts ← loadContacts;
   contacts ← lift (push contacts c);
   _ ← saveContacts contacts;
   k) st
  = match fst (loadContacts st) with
    | Ok (VArr l) =>
        if storage_accepts (localStorage st) "contacts"
             (JSON_stringify (VArr (l ++ [c])))
        then k (persisted st l c)
        else (Err QuotaExceededError, st)
    | Ok _ => (Err TypeError, st)
    | Err e => (Err e, st)
    end.
Proof.
  unfold mbind at 1. unfold M_bind at 1. rewrite loadContacts_eq.
  destruct (fst (loadContacts st)) as [[]|e]; try done.
  unfold saveContacts, setItem, persisted. unfold_M. cbn.
  by destruct (storage_accepts _ _ _).
Qed.

Lemma addContactBtn_onclick_run nameInput keyInput st :
  addContactBtn_onclick nameInput keyInput st =
  if negb (truthy (VStr (trim nameInput))) || negb (truthy (VStr (trim keyInput)))
  then (Alerted NameAndKeyRequired, st)
  else match fst (loadContacts st) with
       | Ok (VArr l) =>
           let c := contact_value (trim nameInput) (trim keyInput) in
           if storage_accepts (localStorage st) "contacts"
                (JSON_stringify (VArr (l ++ [c])))
           then match fst (renderContacts (persisted st l c)) with
                | Ok _ => (Done, persisted st l c)
                | Err e => (Uncaught e, persisted st l c)
                end
           else (Uncaught QuotaExceededError, st)
       | Ok _ => (Uncaught TypeError, st)
       | Err e => (Uncaught e, st)
       end.
Proof.
  unfold addContactBtn_onclick, handler.
  destruct (negb _ || negb _); [done|].
  rewrite appending.
  destruct (fst (loadContacts st)) as [[]|e]; try done.
  cbn zeta. destruct (storage_accepts _ _ _); [|done].
  unfold mbind at 1. unfold M_bind at 1. rewrite renderContacts_eq.
  by destruct (fst (renderContacts _)).
Qed.

Lemma scanQr_onDecoded_run decodedText promptResult st :
  scanQr_onDecoded decodedText promptResult st =
  match promptResult with
  | Some (String ch s) =>
      match fst (loadContacts st) with
      | Ok (VArr l) =>
          let c := contact_value (String ch s) decodedText in
          if storage_accepts (localStorage st) "contacts"
               (JSON_stringify (VArr (l ++ [c])))
          then match fst (renderContacts (persisted st l c)) with
               | Ok _ => (Alerted ContactAdded, persisted st l c)
               | Err e => (Alerted (FailedToAddContact e), persisted st l c)
               end
          else (Alerted (FailedToAddContact QuotaExceededError), st)
      | Ok _ => (Alerted (FailedToAddContact TypeError), st)
      | Err e => (Alerted (FailedToAddContact e), st)
      end
  | _ => (Alerted NameRequired, st)
  end.
Proof.
  unfold scanQr_onDecoded, handler, try_catch.
  destruct promptResult as [[|ch s]|]; try done.
  rewrite appending.
  destruct (fst (loadContacts st)) as [[]|e]; try done.
  cbn zeta. destruct (storage_accepts _ _ _); [|done].
  unfold mbind at 1. unfold M_bind at 1. rewrite renderContacts_eq.
  by destruct (fst (renderContacts _)).
Qed.

Lemma loadContacts_persisted st l c :
  json_faithful (VArr (l ++ [c])) →
  loadContacts (persisted st l c) = (Ok (VArr (l ++ [c])), persisted st l c).
Proof.
  intros [Hne Hparse]. unfold loadContacts. unfold_M. cbn.
  rewrite lookup_insert_eq.
  destruct (JSON_stringify (VArr (l ++ [c]))) as [|ch s] eqn:Hs; [done|].
  by rewrite Hparse.
Qed.

(** C8.  The contact list only grows by appending.  With nothing stored,
    [loadContacts] returns the empty list and does not fail; after a
    successful add, by the form or by a scanned code, [loadContacts]
    returns the list it returned before with one entry more at its end,
    the record of the trimmed name and key (of the prompted name and the
    scanned text), and every earlier entry unchanged at its index. *)
Theorem contacts_append_only (st : state) :
  (localStorage st !! "contacts" = None →
   JSON_parse "[]" = Some (VArr []) →
   loadContacts st = (Ok (VArr []), st))
  ∧ (∀ nameInput keyInput st',
       addContactBtn_onclick nameInput keyInput st = (Done, st') →
       ∃ l, let c := VObj [("name", VStr (trim nameInput));
                           ("publicKey", VStr (trim keyInput))] in
         fst (loadContacts st) = Ok (VArr l)
         ∧ (json_faithful (VArr (l ++ [c])) →
            fst (loadContacts st') = Ok (VArr (l ++ [c]))
            ∧ (l ++ [c]) !! length l = Some c
            ∧ length (l ++ [c]) = S (length l)
            ∧ ∀ i x, l !! i = Some x → (l ++ [c]) !! i = Some x))
  ∧ (∀ decodedText promptResult st',
       scanQr_onDecoded decodedText promptResult st = (Alerted ContactAdded, st') →
       ∃ l name, let c := VObj [("name", VStr name);
                                ("publicKey", VStr decodedText)] in
         promptResult = Some name
         ∧ fst (loadContacts st) = Ok (VArr l)
         ∧ (json_faithful (VArr (l ++ [c])) →
            fst (loadContacts st') = Ok (VArr (l ++ [c]))
            ∧ (l ++ [c]) !! length l = Some c
            ∧ length (l ++ [c]) = S (length l)
            ∧ ∀ i x, l !! i = Some x → (l ++ [c]) !! i = Some x)).
Proof.
  split_and!.
  - intros Hnone Hempty. unfold loadContacts. unfold_M.
    by rewrite Hnone, Hempty.
  - intros nameInput keyInput st'. rewrite addContactBtn_onclick_run.
    destruct (negb _ || negb _); [done|].
    destruct (fst (loadContacts st)) as [[| | | | |l|]|e]; try done.
    cbn zeta. destruct (storage_accepts _ _ _); [|done].
    destruct (fst (renderContacts _)); [|done].
    intros [= <-]. exists l. split; [done|]. intros Hfaithful.
    rewrite loadContacts_persisted by done.
    split_and!; [done| |rewrite length_app; cbn; lia|].
    + by apply list_lookup_middle.
    + intros i x Hx. by apply lookup_app_l_Some.
  - intros decodedText promptResult st'. rewrite scanQr_onDecoded_run.
    destruct promptResult as [[|ch s]|]; try done.
    destruct (fst (loadContacts st)) as [[| | | | |l|]|e]; try done.
    cbn zeta. destruct (storage_accepts _ _ _); [|done].
    destruct (fst (renderContacts _)); [|done].
    intros [= <-]. exists l, (String ch s). split_and!; [done..|].
    intros Hfaithful. rewrite loadContacts_persisted by done.
    split_and!; [done| |rewrite length_app; cbn; lia|].
    + by apply list_lookup_middle.
    + intros i x Hx. by apply lookup_app_l_Some.
Qed.

(** *** Sealing, opening and the handlers never write *)

Lemma encryptMessage_storage recipient message st :
  localStorage (snd (encryptMessage recipient message st)) = localStorage st.
Proof.
  unfold encryptMessage. unfold mbind at 1. unfold M_bind at 1.
  rewrite loadMyKeys_eq. destruct (fst (loadMyKeys st)) as [myKeys|e]; [|done].
  destruct (negb (truthy myKeys)); [done|]. unfold_M.
  destruct recipient; try done.
  destruct (from_base64 s); [|done].
  destruct (randombytes_buf _ _) as [nonce g]. cbn.
  destruct (get_prop myKeys "privateKey") as [[]|]; try done.
  destruct (from_base64 _); [|done]. cbn.
  destruct (crypto_box_easy _ _ _ _); [|done]. cbn.
  destruct (get_prop myKeys "publicKey") as [publicKey|]; [|done]. cbn.
  by destruct (template_literal publicKey).
Qed.

Lemma decryptMessage_state token st : snd (decryptMessage token st) = st.
Proof.
  unfold decryptMessage. unfold mbind at 1. unfold M_bind at 1.
  rewrite loadMyKeys_eq. destruct (fst (loadMyKeys st)) as [myKeys|e]; [|done].
  destruct (negb (truthy myKeys)); [done|].
  destruct (split ":" token) as [|a [|b [|c [|d parts]]]]; try done.
  unfold_M.
  destruct (from_base64 a); [|done]. destruct (from_base64 b); [|done].
  destruct (from_base64 c); [|done].
  destruct (get_prop myKeys "privateKey") as [[]|]; try done.
  destruct (from_base64 _); [|done]. cbn.
  destruct (crypto_box_open_easy _ _ _ _); [|done]. cbn.
  by destruct (to_string _).
Qed.

Lemma decryptMessage_eq token st :
  decryptMessage token st = (fst (decryptMessage token st), st).
Proof.
  rewrite <- (decryptMessage_state token st) at 3.
  by destruct (decryptMessage token st).
Qed.

Lemma encryptBtn_onclick_storage selectedIndex plainText st :
  localStorage (snd (encryptBtn_onclick selectedIndex plainText st))
  = localStorage st.
Proof.
  unfold encryptBtn_onclick, handler.
  destruct selectedIndex as [i|]; [|done].
  unfold mbind at 1. unfold M_bind at 1. rewrite loadContacts_eq.
  destruct (fst (loadContacts st)) as [contacts|e]; [|done].
  unfold mbind at 1. unfold M_bind at 1. unfold lift at 1.
  destruct (get_index contacts i) as [contact|e]; [|done].
  destruct (negb _); [done|]. unfold try_catch.
  unfold mbind at 1. unfold M_bind at 1. unfold lift at 1.
  destruct (get_prop contact "publicKey") as [publicKey|e]; [|done].
  unfold mbind at 1. unfold M_bind at 1.
  pose proof (encryptMessage_storage publicKey (trim plainText) st) as Hst.
  by destruct (encryptMessage publicKey (trim plainText) st) as [[]].
Qed.

Lemma decryptBtn_onclick_state encryptedInput st :
  snd (decryptBtn_onclick encryptedInput st) = st.
Proof.
  unfold decryptBtn_onclick, handler.
  destruct (negb _); [done|]. unfold try_catch.
  unfold mbind at 1. unfold M_bind at 1.
  pose proof (decryptMessage_state (trim encryptedInput) st) as Hst.
  by destruct (decryptMessage (trim encryptedInput) st) as [[]].
Qed.

(** C7, as the script has it.  Sealing and opening, and their handlers,
    never change what is persisted, whether they fail or not.  Adding a
    contact leaves [localStorage] either exactly as it was or with the
    whole list, the new contact at its end, saved in one write; when the
    store did change and the handler still ended in an exception, that
    exception came from re-rendering the list after the save. *)
Theorem failure_leaves_storage (st : state) :
  (∀ recipient message,
     localStorage (snd (encryptMessage recipient message st)) = localStorage st)
  ∧ (∀ token, localStorage (snd (decryptMessage token st)) = localStorage st)
  ∧ (∀ selectedIndex plainText,
       localStorage (snd (encryptBtn_onclick selectedIndex plainText st))
       = localStorage st)
  ∧ (∀ encryptedInput,
       localStorage (snd (decryptBtn_onclick encryptedInput st)) = localStorage st)
  ∧ (∀ nameInput keyInput o st',
       addContactBtn_onclick nameInput keyInput st = (o, st') →
       (o ≠ Done ∧ st' = st)
       ∨ ∃ l, let c := contact_value (trim nameInput) (trim keyInput) in
           fst (loadContacts st) = Ok (VArr l)
           ∧ st' = persisted st l c
           ∧ (o = Done
              ∨ ∃ e, o = Uncaught e ∧ fst (renderContacts st') = Err e)).
Proof.
  split_and!.
  - intros. apply encryptMessage_storage.
  - intros. by rewrite decryptMessage_state.
  - intros. apply encryptBtn_onclick_storage.
  - intros. by rewrite decryptBtn_onclick_state.
  - intros nameInput keyInput o st'. rewrite addContactBtn_onclick_run.
    destruct (negb _ || negb _); [intros [= <- <-]; by left|].
    destruct (fst (loadContacts st)) as [[| | | | |l|]|e];
      try (intros [= <- <-]; by left).
    cbn zeta. destruct (storage_accepts _ _ _); [|intros [= <- <-]; by left].
    destruct (fst (renderContacts _)) as [[]|e] eqn:Hrender;
      intros [= <- <-]; right; exists l; split_and!; eauto.
Qed.

(** C10.  A scanned code becomes a contact as it is: whatever text was
    decoded, empty or not base64 included, is stored unchanged as the
    [publicKey] of the new record as soon as the prompted name is not
    empty, and is what [loadContacts] then returns for it; the name is the
    only thing checked.  The form instead refuses an empty (trimmed) name
    and an empty (trimmed) key. *)
Theorem scanned_key_is_not_validated (st : state) (l : list value)
    (decodedText name : string) :
  let c := VObj [("name", VStr name); ("publicKey", VStr decodedText)] in
  fst (loadContacts st) = Ok (VArr l) →
  name ≠ "" →
  storage_accepts (localStorage st) "contacts"
    (JSON_stringify (VArr (l ++ [c]))) = true →
  snd (scanQr_onDecoded decodedText (Some name) st) = persisted st l c
  ∧ localStorage (snd (scanQr_onDecoded decodedText (Some name) st))
      !! "contacts" = Some (JSON_stringify (VArr (l ++ [c])))
  ∧ get_prop c "publicKey" = Ok (VStr decodedText)
  ∧ (json_faithful (VArr (l ++ [c])) →
     fst (loadContacts (snd (scanQr_onDecoded decodedText (Some name) st)))
     = Ok (VArr (l ++ [c])))
  ∧ (fst (renderContacts (persisted st l c)) = Ok () →
     fst (scanQr_onDecoded decodedText (Some name) st) = Alerted ContactAdded)
  ∧ scanQr_onDecoded decodedText None st = (Alerted NameRequired, st)
  ∧ scanQr_onDecoded decodedText (Some "") st = (Alerted NameRequired, st)
  ∧ (∀ nameInput keyInput,
       trim nameInput = "" ∨ trim keyInput = "" →
       addContactBtn_onclick nameInput keyInput st
       = (Alerted NameAndKeyRequired, st)).
Proof.
  intros c Hload Hname Hfits.
  assert (snd (scanQr_onDecoded decodedText (Some name) st) = persisted st l c)
    as Hsaved.
  { rewrite scanQr_onDecoded_run. destruct name as [|ch s]; [done|].
    rewrite Hload. cbn zeta. change (contact_value _ _) with c. rewrite Hfits.
    by destruct (fst (renderContacts _)). }
  split_and!; try done.
  - rewrite Hsaved. cbn. by rewrite lookup_insert_eq.
  - intros Hfaithful. by rewrite Hsaved, loadContacts_persisted.
  - intros Hrender. rewrite scanQr_onDecoded_run. destruct name as [|ch s]; [done|].
    rewrite Hload. cbn zeta. change (contact_value _ _) with c.
    by rewrite Hfits, Hrender.
  - intros nameInput keyInput Hempty. rewrite addContactBtn_onclick_run.
    by destruct Hempty as [-> | ->]; cbn; rewrite ?orb_true_r.
Qed.

(** *** Choosing the recipient *)

Lemma encryptBtn_onclick_run i plainText st :
  encryptBtn_onclick (Some i) plainText st =
  match fst (loadContacts st) with
  | Err e => (Uncaught e, st)
  | Ok contacts =>
      match get_index contacts i with
      | Err e => (Uncaught e, st)
      | Ok contact =>
          if negb (truthy (VStr (trim plainText)))
          then (Alerted TypeMessageFirst, st)
          else match get_prop contact "publicKey" with
               | Err e => (Alerted (EncryptionFailed e), st)
               | Ok publicKey =>
                   match encryptMessage publicKey (trim plainText) st with
                   | (Ok encrypted, st') => (Shown encrypted, st')
                   | (Err e, st') => (Alerted (EncryptionFailed e), st')
                   end
               end
      end
  end.
Proof.
  unfold encryptBtn_onclick, handler.
  unfold mbind at 1. unfold M_bind at 1. rewrite loadContacts_eq.
  destruct (fst (loadContacts st)) as [contacts|e]; cbn [fst]; [|done].
  unfold mbind at 1. unfold M_bind at 1. unfold lift at 1.
  destruct (get_index contacts i) as [contact|e]; [|done].
  destruct (negb _); [done|]. unfold try_catch.
  unfold mbind at 1. unfold M_bind at 1. unfold lift at 1.
  destruct (get_prop contact "publicKey") as [publicKey|e]; [|done].
  unfold mbind at 1. unfold M_bind at 1.
  destruct (encryptMessage publicKey (trim plainText) st) as [[]]; by unfold_M.
Qed.

Lemma decryptBtn_onclick_run encryptedInput st :
  decryptBtn_onclick encryptedInput st =
  if bool_decide (trim encryptedInput = "") then (Alerted PasteMessageFirst, st)
  else match fst (decryptMessage (trim encryptedInput) st) with
       | Ok decrypted => (Shown decrypted, st)
       | Err e => (ShownError e, st)
       end.
Proof.
  unfold decryptBtn_onclick, handler, try_catch. cbn [truthy].
  destruct (String.eqb_spec (trim encryptedInput) "") as [Hempty|Hfull];
    cbn [negb]; [by rewrite bool_decide_eq_true_2|].
  rewrite bool_decide_eq_false_2 by done.
  unfold mbind at 1. unfold M_bind at 1. rewrite decryptMessage_eq.
  by destruct (fst (decryptMessage _ _)).
Qed.

(** C5, as the script has it.  With no identity ever generated (the
    [myKeys] slot is absent), [encryptMessage] and [decryptMessage] fail
    with "No local keypair found" whatever their arguments are, and before
    anything else happens: no nonce is drawn, the state is the one they
    were called in.  The buttons report it when they get that far.  The
    decrypt button does for every input that is not blank.  The encrypt
    button first wants a recipient, loads the contacts, takes the chosen
    one, wants a message that is not blank and reads the contact's key;
    each of these steps ends the handler in its own way before the
    identity is looked at. *)
Theorem no_identity_is_reported (st : state) :
  localStorage st !! "myKeys" = None →
  (∀ (recipient : value) (message token : string),
     encryptMessage recipient message st = (Err NoLocalKeypair, st)
     ∧ decryptMessage token st = (Err NoLocalKeypair, st))
  ∧ (∀ encryptedInput,
       decryptBtn_onclick encryptedInput st =
       if bool_decide (trim encryptedInput = "")
       then (Alerted PasteMessageFirst, st)
       else (ShownError NoLocalKeypair, st))
  ∧ (∀ plainText,
       encryptBtn_onclick None plainText st = (Alerted SelectRecipientFirst, st))
  ∧ (∀ i plainText,
       encryptBtn_onclick (Some i) plainText st =
       match fst (loadContacts st) with
       | Err e => (Uncaught e, st)
       | Ok contacts =>
           match get_index contacts i with
           | Err e => (Uncaught e, st)
           | Ok contact =>
               if bool_decide (trim plainText = "")
               then (Alerted TypeMessageFirst, st)
               else match get_prop contact "publicKey" with
                    | Err e => (Alerted (EncryptionFailed e), st)
                    | Ok _ => (Alerted (EncryptionFailed NoLocalKeypair), st)
                    end
           end
       end).
Proof.
  intros Hnone.
  assert (∀ recipient message,
            encryptMessage recipient message st = (Err NoLocalKeypair, st)) as Hseal.
  { intros. unfold encryptMessage. unfold mbind at 1. unfold M_bind at 1.
    by rewrite (loadMyKeys_absent st Hnone). }
  assert (∀ token, decryptMessage token st = (Err NoLocalKeypair, st)) as Hopen.
  { intros. unfold decryptMessage. unfold mbind at 1. unfold M_bind at 1.
    by rewrite (loadMyKeys_absent st Hnone). }
  split_and!.
  - done.
  - intros encryptedInput. by rewrite decryptBtn_onclick_run, Hopen.
  - done.
  - intros i plainText. rewrite encryptBtn_onclick_run.
    destruct (fst (loadContacts st)) as [contacts|e]; [|done].
    destruct (get_index contacts i) as [contact|e]; [|done]. cbn [truthy].
    destruct (String.eqb_spec (trim plainText) "") as [Hempty|Hfull]; cbn [negb].
    + by rewrite bool_decide_eq_true_2.
    + rewrite bool_decide_eq_false_2 by done.
      destruct (get_prop contact "publicKey") as [publicKey|e]; [|done].
      by rewrite Hseal.
Qed.

(** C6, as the script has it.  The only recipient check is for the
    placeholder option.  An index past the end of the stored list has no
    condition of its own: reading [publicKey] of the missing contact
    raises a TypeError, reported by the general "Encryption failed" alert,
    with or without an identity.  For an index in range the message is
    sealed with that contact's public key and the local private key, and
    the token carries the local public key as sender. *)
Theorem recipient_resolution `{!SodiumLaws P} (st : state) (l : list value)
    (plainText : string) :
  fst (loadContacts st) = Ok (VArr l) →
  trim plainText ≠ "" →
  encryptBtn_onclick None plainText st = (Alerted SelectRecipientFirst, st)
  ∧ (∀ i, (length l ≤ i)%nat →
       encryptBtn_onclick (Some i) plainText st
       = (Alerted (EncryptionFailed TypeError), st))
  ∧ (∀ i name pkA skA pkB nonce g cipher,
       l !! i = Some (contact_value name (to_base64 pkB)) →
       has_identity st pkA skA →
       randombytes_buf crypto_box_NONCEBYTES (csprng st) = (nonce, g) →
       crypto_box_easy (from_string (trim plainText)) nonce pkB skA = Some cipher →
       encryptBtn_onclick (Some i) plainText st
       = (Shown (to_base64 pkA +:+ ":" +:+ to_base64 nonce
                   +:+ ":" +:+ to_base64 cipher),
          State (localStorage st) g)).
Proof.
  intros Hload Hmsg.
  assert (negb (truthy (VStr (trim plainText))) = false) as Htruthy.
  { cbn. destruct (String.eqb_spec (trim plainText) ""); done. }
  split_and!; [done|..].
  - intros i Hi. rewrite encryptBtn_onclick_run, Hload. cbn [get_index].
    rewrite (lookup_ge_None_2 l i Hi). cbn [default]. by rewrite Htruthy.
  - intros i name pkA skA pkB nonce g cipher Hi Hid Hrand Hbox.
    rewrite encryptBtn_onclick_run, Hload. cbn [get_index].
    rewrite Hi. cbn [default]. rewrite Htruthy.
    cbn [contact_value get_prop assoc]. cbn.
    by rewrite (encryptMessage_sealed st pkA skA pkB _ nonce g cipher)
      by eauto using base64_roundtrip.
Qed.

(** A run is known by its result, its store and its generator. *)
Lemma run_eq {A} (r : A * state) (a : A) (st : state) :
  fst r = a →
  localStorage (snd r) = localStorage st →
  csprng (snd r) = csprng st →
  r = (a, st).
Proof. destruct r as [a' [m g]], st as [m' g']. cbn. by intros -> -> ->. Qed.

(** ** Beyond the claims *)

(** *** What the loads and the operations depend on *)

Lemma loadMyKeys_frame st st' :
  localStorage st !! "myKeys" = localStorage st' !! "myKeys" →
  fst (loadMyKeys st) = fst (loadMyKeys st').
Proof. intros Heq. unfold loadMyKeys. unfold_M. rewrite Heq.
  by destruct (localStorage st' !! "myKeys") as [[|c s]|]. Qed.

Lemma loadContacts_frame st st' :
  localStorage st !! "contacts" = localStorage st' !! "contacts" →
  fst (loadContacts st) = fst (loadContacts st').
Proof. intros Heq. unfold loadContacts. unfold_M. rewrite Heq.
  by destruct (localStorage st' !! "contacts") as [[|c s]|]. Qed.

Lemma loadContacts_error st e : fst (loadContacts st) = Err e → e = SyntaxError.
Proof.
  unfold loadContacts. unfold_M.
  destruct (localStorage st !! "contacts") as [[|c s]|]; cbn;
    destruct (JSON_parse _); cbn; congruence.
Qed.

Lemma loadMyKeys_error st e : fst (loadMyKeys st) = Err e → e = SyntaxError.
Proof.
  unfold loadMyKeys. unfold_M.
  destruct (localStorage st !! "myKeys") as [[|c s]|]; cbn; try done.
  destruct (JSON_parse _); cbn; congruence.
Qed.

(** The result of [decryptMessage] as a function of what [loadMyKeys]
    returns and of the token. *)
Lemma decryptMessage_result token st :
  fst (decryptMessage token st) =
  match fst (loadMyKeys st) with
  | Err e => Err e
  | Ok myKeys =>
      if truthy myKeys then
        match split ":" token with
        | [a; b; c] =>
            match from_base64 a, from_base64 b, from_base64 c with
            | Some spk, Some n, Some ct =>
                match opens_to myKeys ct n spk with
                | Some text => Ok text
                | None => Err FailedToDecrypt
                end
            | _, _, _ => Err SodiumError
            end
        | _ => Err InvalidMessageFormat
        end
      else Err NoLocalKeypair
  end.
Proof.
  destruct (fst (loadMyKeys st)) as [myKeys|e] eqn:Hload.
  - destruct (truthy myKeys) eqn:Htruthy.
    + rewrite (decryptMessage_parts st myKeys token) by done.
      destruct (split ":" token) as [|a [|b [|c [|d parts]]]]; try done.
      destruct (from_base64 a), (from_base64 b), (from_base64 c); try done.
      by destruct (opens_to _ _ _ _).
    + unfold decryptMessage. unfold mbind at 1. unfold M_bind at 1.
      by rewrite loadMyKeys_eq, Hload, Htruthy.
  - unfold decryptMessage. unfold mbind at 1. unfold M_bind at 1.
    by rewrite loadMyKeys_eq, Hload.
Qed.

Lemma encryptMessage_frame recipient message st st' :
  fst (loadMyKeys st) = fst (loadMyKeys st') →
  csprng st = csprng st' →
  fst (encryptMessage recipient message st)
    = fst (encryptMessage recipient message st')
  ∧ csprng (snd (encryptMessage recipient message st))
    = csprng (snd (encryptMessage recipient message st')).
Proof.
  intros Hkeys Hrng.
  split; unfold encryptMessage;
    unfold mbind at 1 9; unfold M_bind at 1 9;
    rewrite (loadMyKeys_eq st), (loadMyKeys_eq st'), Hkeys;
    (destruct (fst (loadMyKeys st')) as [myKeys|e]; [|done]);
    (destruct (negb (truthy myKeys)); [done|]); unfold_M;
    (destruct recipient; try done);
    (destruct (from_base64 s); [|done]); rewrite Hrng;
    destruct (randombytes_buf _ _) as [nonce g]; cbn;
    (destruct (get_prop myKeys "privateKey") as [[]|]; try done);
    (destruct (from_base64 _); [|done]); cbn;
    (destruct (crypto_box_easy _ _ _ _); [|done]); cbn;
    (destruct (get_prop myKeys "publicKey") as [publicKey|]; [|done]); cbn;
    by destruct (template_literal publicKey).
Qed.

(** X9. Sealing and opening look at the identity slot only (and sealing
    at the generator): the contact list plays no part, so a token opens
    whether or not its sender is a stored contact. *)
Theorem operations_ignore_contacts (st st' : state) :
  localStorage st !! "myKeys" = localStorage st' !! "myKeys" →
  (∀ token, fst (decryptMessage token st) = fst (decryptMessage token st'))
  ∧ (csprng st = csprng st' →
     ∀ recipient message,
       fst (encryptMessage recipient message st)
       = fst (encryptMessage recipient message st')).
Proof.
  intros Hslot. pose proof (loadMyKeys_frame st st' Hslot) as Hkeys. split.
  - intros token. by rewrite !decryptMessage_result, Hkeys.
  - intros Hrng recipient message.
    by apply encryptMessage_frame.
Qed.

(** X6. The identity check is a truthiness test: a stored identity that
    is the empty string, or that parses to null, false, 0 or the empty
    string, counts as no identity, and both operations fail with "No local
    keypair found" without doing anything else. *)
Theorem falsy_identity_is_no_identity (st : state) (stored : value) :
  fst (loadMyKeys st) = Ok stored →
  truthy stored = false →
  ∀ (recipient : value) (message token : string),
    encryptMessage recipient message st = (Err NoLocalKeypair, st)
    ∧ decryptMessage token st = (Err NoLocalKeypair, st).
Proof.
  intros Hload Hfalsy recipient message token.
  unfold encryptMessage, decryptMessage.
  unfold mbind at 1 9. unfold M_bind at 1 9.
  by rewrite loadMyKeys_eq, Hload, Hfalsy.
Qed.

(** *** What the handlers let out *)

(** X1. The decrypt button never lets an exception out and never changes
    the state.  It ends with the alert for an empty input, with the
    plaintext, or with the message of the error of [decryptMessage] in the
    output element; that error is never a TypeError. *)
Theorem decryptBtn_onclick_contained (encryptedInput : string) (st : state) :
  snd (decryptBtn_onclick encryptedInput st) = st
  ∧ match fst (decryptBtn_onclick encryptedInput st) with
    | Alerted PasteMessageFirst => trim encryptedInput = ""
    | Shown text =>
        trim encryptedInput ≠ ""
        ∧ fst (decryptMessage (trim encryptedInput) st) = Ok text
    | ShownError e =>
        trim encryptedInput ≠ ""
        ∧ fst (decryptMessage (trim encryptedInput) st) = Err e
        ∧ e ≠ TypeError ∧ e ≠ QuotaExceededError
    | _ => False
    end.
Proof.
  split; [apply decryptBtn_onclick_state|].
  unfold decryptBtn_onclick, handler, try_catch. cbn [truthy].
  destruct (String.eqb_spec (trim encryptedInput) "") as [Hempty|Hfull];
    cbn [negb]; [done|].
  unfold mbind at 1. unfold M_bind at 1.
  pose proof (decryptMessage_result (trim encryptedInput) st) as Hres.
  destruct (decryptMessage (trim encryptedInput) st) as [[text|e] st'];
    cbn in Hres |- *; [done|].
  split_and!; [done..| |].
  - intros ->. destruct (fst (loadMyKeys st)) as [myKeys|e] eqn:Hload.
    + destruct (truthy myKeys); [|done].
      destruct (split ":" (trim encryptedInput)) as [|a [|b [|c [|d parts]]]];
        try done.
      destruct (from_base64 a), (from_base64 b), (from_base64 c); try done.
      by destruct (opens_to _ _ _ _).
    + apply loadMyKeys_error in Hload. congruence.
  - intros ->. destruct (fst (loadMyKeys st)) as [myKeys|e] eqn:Hload.
    + destruct (truthy myKeys); [|done].
      destruct (split ":" (trim encryptedInput)) as [|a [|b [|c [|d parts]]]];
        try done.
      destruct (from_base64 a), (from_base64 b), (from_base64 c); try done.
      by destruct (opens_to _ _ _ _).
    + apply loadMyKeys_error in Hload. congruence.
Qed.

(** X3. The encrypt button lets an exception out in two cases only: the
    contact slot does not parse (SyntaxError) or it parses to null
    (TypeError).  Everything else ends in an alert or in a token. *)
Theorem encryptBtn_onclick_uncaught (selectedIndex : option nat)
    (plainText : string) (st : state) (e : error) :
  fst (encryptBtn_onclick selectedIndex plainText st) = Uncaught e →
  (e = SyntaxError ∧ fst (loadContacts st) = Err SyntaxError)
  ∨ (e = TypeError
     ∧ (fst (loadContacts st) = Ok VNull ∨ fst (loadContacts st) = Ok VUndefined)).
Proof.
  destruct selectedIndex as [i|]; [|done].
  rewrite encryptBtn_onclick_run.
  destruct (fst (loadContacts st)) as [contacts|e'] eqn:Hload.
  - destruct (get_index contacts i) as [contact|e'] eqn:Hindex.
    + destruct (negb _); [done|].
      destruct (get_prop contact "publicKey"); [|done].
      by destruct (encryptMessage _ _ _) as [[]].
    + cbn. intros [= <-]. right.
      destruct contacts; cbn in Hindex; try done; injection Hindex as <-; eauto.
  - cbn. intros [= <-]. left.
    by rewrite (loadContacts_error st e' Hload).
Qed.

(** X2. The callback of the scanner never lets an exception out: it
    always ends in an alert.  "Name required" and every failure before the
    save leave the state as it was; after the save the list holds the new
    contact, whether the alert reports success or a failure of the
    re-rendering. *)
Theorem scanQr_onDecoded_contained (decodedText : string)
    (promptResult : option string) (st : state) :
  match fst (scanQr_onDecoded decodedText promptResult st) with
  | Alerted NameRequired =>
      (promptResult = None ∨ promptResult = Some "")
      ∧ snd (scanQr_onDecoded decodedText promptResult st) = st
  | Alerted ContactAdded =>
      ∃ l name, promptResult = Some name ∧ name ≠ ""
        ∧ fst (loadContacts st) = Ok (VArr l)
        ∧ snd (scanQr_onDecoded decodedText promptResult st)
          = persisted st l (contact_value name decodedText)
  | Alerted (FailedToAddContact e) =>
      snd (scanQr_onDecoded decodedText promptResult st) = st
      ∨ ∃ l name, promptResult = Some name
          ∧ fst (loadContacts st) = Ok (VArr l)
          ∧ snd (scanQr_onDecoded decodedText promptResult st)
            = persisted st l (contact_value name decodedText)
          ∧ fst (renderContacts (persisted st l (contact_value name decodedText)))
            = Err e
  | _ => False
  end.
Proof.
  rewrite scanQr_onDecoded_run.
  destruct promptResult as [[|ch s]|]; cbn; [by eauto| |by eauto].
  destruct (fst (loadContacts st)) as [[| | | | |l|]|e]; cbn; try by left.
  destruct (storage_accepts _ _ _); cbn; [|by left].
  destruct (fst (renderContacts _)) as [[]|e] eqn:Hrender; cbn.
  - exists l, (String ch s). by split_and!.
  - right. exists l, (String ch s). by split_and!.
Qed.

(** *** Rendering *)

Lemma get_prop_name c :
  (c ≠ VNull ∧ c ≠ VUndefined ∧ ∃ v, get_prop c "name" = Ok v)
  ∨ ((c = VNull ∨ c = VUndefined) ∧ get_prop c "name" = Err TypeError).
Proof. destruct c; cbn; eauto 6. Qed.

Lemma foldr_names_cons c l st :
  foldr (λ c rest, _ ← (_ ← lift (get_prop c "name"); mret ()); rest)
    (mret ()) (c :: l) st
  = match get_prop c "name" with
    | Ok _ =>
        foldr (λ c rest, _ ← (_ ← lift (get_prop c "name"); mret ()); rest)
          (mret ()) l st
    | Err e => (Err e, st)
    end.
Proof.
  cbn [foldr]. unfold mbind at 1 2. unfold M_bind at 1 2. unfold lift at 1.
  by destruct (get_prop c "name").
Qed.

Lemma forEach_names_list l st :
  (Forall (λ c, c ≠ VNull ∧ c ≠ VUndefined) l
   ∧ foldr (λ c rest, _ ← (_ ← lift (get_prop c "name"); mret ()); rest)
       (mret ()) l st = (Ok (), st))
  ∨ (¬ Forall (λ c, c ≠ VNull ∧ c ≠ VUndefined) l
     ∧ foldr (λ c rest, _ ← (_ ← lift (get_prop c "name"); mret ()); rest)
         (mret ()) l st = (Err TypeError, st)).
Proof.
  induction l as [|c l IH]; [by left|].
  rewrite !foldr_names_cons.
  destruct (get_prop_name c) as [(Hn & Hu & v & ->) | [Hc ->]].
  - destruct IH as [[Hall ->] | [Hnot ->]].
    + left. split; [|done]. apply Forall_cons; repeat split; done.
    + right. split; [|done]. intros Hall. apply Hnot.
      by apply Forall_cons in Hall as [_ Hall].
  - right. split; [|done]. intros Hall.
    apply Forall_cons in Hall as [[Hn Hu] _]. by destruct Hc.
Qed.

Lemma forEach_names v st :
  (renderable v
   ∧ forEach v (λ c, _ ← lift (get_prop c "name"); mret ()) st = (Ok (), st))
  ∨ (¬ renderable v
     ∧ forEach v (λ c, _ ← lift (get_prop c "name"); mret ()) st
       = (Err TypeError, st)).
Proof.
  destruct v as [| | | | |l|];
    try (right; split; [by intros (l & [=] & _) | done]).
  cbn [forEach].
  destruct (forEach_names_list l st) as [[Hall ->] | [Hnot ->]].
  - left. split; [by exists l | done].
  - right. split; [|done]. by intros (l' & [= <-] & Hall).
Qed.




Lemma contacts_renderable l : Forall is_contact l → renderable (VArr l).
Proof.
  intros Hall. exists l. split; [done|].
  eapply Forall_impl; [exact Hall|]. by intros c (name & key & ->).
Qed.

Lemma renderContacts_ok st l :
  fst (loadContacts st) = Ok (VArr l) → Forall is_contact l →
  renderContacts st = (Ok (), st).
Proof.
  intros Hload Hall. unfold renderContacts.
  unfold mbind at 1. unfold M_bind at 1. rewrite loadContacts_eq, Hload.
  unfold mbind at 1. unfold M_bind at 1.
  destruct (forEach_names (VArr l) st) as [[_ Hrun] | [[] _]];
    [|by apply contacts_renderable].
  by rewrite Hrun.
Qed.

Lemma renderMyKey_ok st :
  (fst (loadMyKeys st) = Ok VNull ∨ ∃ pk sk, has_identity st pk sk) →
  renderMyKey st = (Ok (), st).
Proof.
  intros Hid. unfold renderMyKey.
  unfold mbind at 1. unfold M_bind at 1. rewrite loadMyKeys_eq.
  destruct Hid as [Hnull | (pk & sk & Hkeys)].
  - rewrite Hnull. cbn [truthy]. unfold_M. by rewrite loadMyKeys_eq, Hnull.
  - unfold has_identity in Hkeys. rewrite Hkeys. cbn [keys_value truthy].
    unfold_M. cbn. by rewrite loadMyKeys_eq, Hkeys.
Qed.

(** *** Stores the script wrote itself *)

Lemma well_formed_storage st st' :
  localStorage st = localStorage st' → well_formed st → well_formed st'.
Proof.
  intros Heq [Hid Hcontacts]. unfold well_formed, has_identity in *.
  by rewrite <- (loadMyKeys_frame st st'), <- (loadContacts_frame st st')
    by (by rewrite Heq).
Qed.

Lemma loadMyKeys_persisted st l c :
  fst (loadMyKeys (persisted st l c)) = fst (loadMyKeys st).
Proof. apply loadMyKeys_frame. cbn. by rewrite lookup_insert_ne. Qed.

Lemma loadContacts_regenerated st pk sk g :
  fst (loadContacts (regenerated st pk sk g)) = fst (loadContacts st).
Proof. apply loadContacts_frame. cbn. by rewrite lookup_insert_ne. Qed.

Lemma loadMyKeys_regenerated st pk sk g :
  json_faithful (keys_value pk sk) →
  loadMyKeys (regenerated st pk sk g)
  = (Ok (keys_value pk sk), regenerated st pk sk g).
Proof.
  intros [Hne Hparse]. unfold loadMyKeys. unfold_M. cbn [regenerated localStorage].
  rewrite lookup_insert_eq.
  destruct (JSON_stringify (keys_value pk sk)) as [|ch s] eqn:Hs; [done|].
  by rewrite Hparse.
Qed.

Lemma well_formed_persisted st l c :
  well_formed st → is_contact c →
  fst (loadContacts st) = Ok (VArr l) →
  json_faithful (VArr (l ++ [c])) →
  well_formed (persisted st l c).
Proof.
  intros [Hid (l' & Hl' & Hall)] Hc Hload Hfaithful.
  assert (l' = l) as -> by congruence.
  split.
  - unfold has_identity. by rewrite loadMyKeys_persisted.
  - exists (l ++ [c]). rewrite loadContacts_persisted by done.
    split; [done|]. apply Forall_app. split; [done|]. by apply Forall_singleton.
Qed.

Lemma renderMyKey_state st : snd (renderMyKey st) = st.
Proof.
  unfold renderMyKey. unfold mbind at 1. unfold M_bind at 1.
  rewrite loadMyKeys_eq. destruct (fst (loadMyKeys st)) as [keys|e]; [|done].
  destruct (truthy keys); unfold_M.
  - destruct (get_prop keys "publicKey"); [|done].
    rewrite loadMyKeys_eq. by destruct (fst (loadMyKeys st)).
  - rewrite loadMyKeys_eq. by destruct (fst (loadMyKeys st)).
Qed.

Lemma generateKeyPair_run st pk sk g :
  crypto_box_keypair (csprng st) = ((pk, sk), g) →
  generateKeyPair st = (Ok (keys_value pk sk), State (localStorage st) g).
Proof.
  intros Hpair. unfold generateKeyPair, sodium_crypto_box_keypair.
  unfold_M. by rewrite Hpair.
Qed.

Lemma generateBtn_onclick_run st pk sk g :
  crypto_box_keypair (csprng st) = ((pk, sk), g) →
  generateBtn_onclick st =
  if storage_accepts (localStorage st) "myKeys" (JSON_stringify (keys_value pk sk))
  then match fst (renderMyKey (regenerated st pk sk g)) with
       | Ok _ => (Done, regenerated st pk sk g)
       | Err e => (Uncaught e, regenerated st pk sk g)
       end
  else (Uncaught QuotaExceededError, State (localStorage st) g).
Proof.
  intros Hpair. unfold generateBtn_onclick, handler.
  unfold mbind at 1. unfold M_bind at 1.
  rewrite (generateKeyPair_run st pk sk g Hpair).
  unfold mbind at 1. unfold M_bind at 1.
  unfold saveMyKeys, setItem. cbn [localStorage csprng].
  destruct (storage_accepts _ _ _); [|done].
  fold (regenerated st pk sk g).
  unfold mbind at 1. unfold M_bind at 1.
  pose proof (renderMyKey_state (regenerated st pk sk g)) as Hstate.
  destruct (renderMyKey (regenerated st pk sk g)) as [[[]|e] st'];
    cbn in Hstate |- *; by subst.
Qed.

(** X5. Generating keys replaces the identity and nothing else: the new
    pair is what [loadMyKeys] returns afterwards, whatever was stored
    before, and the contact list reads as before.  When the store refuses
    the record, the old identity stays (the pair was drawn all the same). *)
Theorem generate_replaces_identity (st : state) (pk sk : bytes) (g : rng_state) :
  crypto_box_keypair (csprng st) = ((pk, sk), g) →
  (storage_accepts (localStorage st) "myKeys"
     (JSON_stringify (keys_value pk sk)) = true →
   json_faithful (keys_value pk sk) →
   generateBtn_onclick st = (Done, regenerated st pk sk g)
   ∧ has_identity (regenerated st pk sk g) pk sk
   ∧ fst (loadContacts (regenerated st pk sk g)) = fst (loadContacts st))
  ∧ (storage_accepts (localStorage st) "myKeys"
       (JSON_stringify (keys_value pk sk)) = false →
     generateBtn_onclick st
     = (Uncaught QuotaExceededError, State (localStorage st) g)).
Proof.
  intros Hpair. rewrite (generateBtn_onclick_run st pk sk g Hpair). split.
  - intros -> Hfaithful.
    assert (has_identity (regenerated st pk sk g) pk sk) as Hid.
    { unfold has_identity. by rewrite loadMyKeys_regenerated. }
    rewrite renderMyKey_ok by eauto.
    split_and!; [done..|]. apply loadContacts_regenerated.
  - by intros ->.
Qed.

(** X14. On a store the script wrote itself the initial render succeeds
    and changes nothing; a store with nothing in it is such a store. *)
Theorem init_on_well_formed (st : state) :
  (well_formed st → init st = (Ok (), st))
  ∧ (localStorage st !! "myKeys" = None →
     localStorage st !! "contacts" = None →
     JSON_parse "[]" = Some (VArr []) →
     well_formed st).
Proof.
  split.
  - intros [Hid (l & Hload & Hall)]. unfold init.
    unfold mbind at 1. unfold M_bind at 1.
    rewrite renderMyKey_ok by done. by apply renderContacts_ok with l.
  - intros Hkeys Hcontacts Hempty. split.
    + left. by rewrite (loadMyKeys_absent st Hkeys).
    + exists []. split; [|done].
      unfold loadContacts. unfold_M. by rewrite Hcontacts, Hempty.
Qed.

(** X11. The handlers keep the store well formed, provided [JSON.parse]
    reads back what they write: encrypting and decrypting write nothing,
    adding a contact by the form or by a scan appends a contact, and
    generating keys replaces the identity by a pair. *)
Theorem well_formed_preserved (st : state) :
  well_formed st →
  (∀ selectedIndex plainText,
     well_formed (snd (encryptBtn_onclick selectedIndex plainText st)))
  ∧ (∀ encryptedInput,
       well_formed (snd (decryptBtn_onclick encryptedInput st)))
  ∧ (∀ nameInput keyInput l,
       fst (loadContacts st) = Ok (VArr l) →
       json_faithful
         (VArr (l ++ [contact_value (trim nameInput) (trim keyInput)])) →
       well_formed (snd (addContactBtn_onclick nameInput keyInput st)))
  ∧ (∀ decodedText promptResult l,
       fst (loadContacts st) = Ok (VArr l) →
       (∀ name, promptResult = Some name →
          json_faithful (VArr (l ++ [contact_value name decodedText]))) →
       well_formed (snd (scanQr_onDecoded decodedText promptResult st)))
  ∧ (∀ pk sk g,
       crypto_box_keypair (csprng st) = ((pk, sk), g) →
       json_faithful (keys_value pk sk) →
       well_formed (snd (generateBtn_onclick st))).
Proof.
  intros Hwf. split_and!.
  - intros i m. eapply well_formed_storage; [|exact Hwf].
    by rewrite encryptBtn_onclick_storage.
  - intros input. by rewrite decryptBtn_onclick_state.
  - intros nameInput keyInput l Hload Hfaithful.
    rewrite addContactBtn_onclick_run.
    destruct (negb _ || negb _); [done|]. rewrite Hload. cbn zeta.
    destruct (storage_accepts _ _ _); [|done].
    assert (well_formed (persisted st l
              (contact_value (trim nameInput) (trim keyInput)))) as Hwf'.
    { apply well_formed_persisted; try done. by eexists _, _. }
    by destruct (fst (renderContacts _)).
  - intros decodedText promptResult l Hload Hfaithful.
    rewrite scanQr_onDecoded_run.
    destruct promptResult as [[|ch s]|]; try done.
    rewrite Hload. cbn zeta.
    destruct (storage_accepts _ _ _); [|done].
    assert (well_formed (persisted st l
              (contact_value (String ch s) decodedText))) as Hwf'.
    { apply well_formed_persisted; try done; [by eexists _, _ | by apply Hfaithful]. }
    by destruct (fst (renderContacts _)).
  - intros pk sk g Hpair Hfaithful.
    rewrite (generateBtn_onclick_run st pk sk g Hpair).
    destruct (storage_accepts _ _ _).
    + assert (well_formed (regenerated st pk sk g)) as Hwf'.
      { destruct Hwf as [_ Hcontacts]. split.
        - right. exists pk, sk. unfold has_identity.
          by rewrite loadMyKeys_regenerated.
        - by rewrite loadContacts_regenerated. }
      destruct Hwf' as [Hid' Hc'].
      rewrite renderMyKey_ok by done. by split.
    + by eapply well_formed_storage; [|exact Hwf].
Qed.

(** X12. On a store the script wrote itself, adding a contact by the form
    is all or nothing in the strict sense: it ends with the list saved and
    rendered, or with the state exactly as it was -- after the alert for a
    missing name or key, or when the store refuses the record. *)
Theorem add_contact_on_well_formed (st : state) (nameInput keyInput : string)
    (l : list value) :
  well_formed st →
  fst (loadContacts st) = Ok (VArr l) →
  json_faithful (VArr (l ++ [contact_value (trim nameInput) (trim keyInput)])) →
  let c := contact_value (trim nameInput) (trim keyInput) in
  addContactBtn_onclick nameInput keyInput st =
  if bool_decide (trim nameInput = "") || bool_decide (trim keyInput = "")
  then (Alerted NameAndKeyRequired, st)
  else if storage_accepts (localStorage st) "contacts"
            (JSON_stringify (VArr (l ++ [c])))
       then (Done, persisted st l c)
       else (Uncaught QuotaExceededError, st).
Proof.
  intros Hwf Hload Hfaithful c. rewrite addContactBtn_onclick_run.
  cbn [truthy]. rewrite !negb_involutive.
  replace (String.eqb (trim nameInput) "") with (bool_decide (trim nameInput = ""))
    by (destruct (String.eqb_spec (trim nameInput) ""); by case_bool_decide).
  replace (String.eqb (trim keyInput) "") with (bool_decide (trim keyInput = ""))
    by (destruct (String.eqb_spec (trim keyInput) ""); by case_bool_decide).
  destruct (_ || _); [done|]. rewrite Hload. cbn zeta. fold c.
  destruct (storage_accepts _ _ _); [|done].
  assert (well_formed (persisted st l c)) as [_ (l' & Hl' & Hall)].
  { apply well_formed_persisted; try done. by eexists _, _. }
  by rewrite (renderContacts_ok _ l').
Qed.

(** *** From one page to the other *)

Lemma token_not_empty (a b c : string) : a +:+ ":" +:+ b +:+ ":" +:+ c ≠ "".
Proof. by destruct a. Qed.

(** X4. What the encrypt button shows, pasted into the recipient's page
    with or without white space around it, is shown by the decrypt button
    as the message that was typed, trimmed. *)
Theorem paste_roundtrip `{!SodiumLaws P} (alice bob : state) (l : list value)
    (i : nat) (name : string) (pkA skA pkB skB : bytes) (plainText : string) :
  is_keypair pkA skA → is_keypair pkB skB →
  has_identity alice pkA skA → has_identity bob pkB skB →
  fst (loadContacts alice) = Ok (VArr l) →
  l !! i = Some (contact_value name (to_base64 pkB)) →
  trim plainText ≠ "" →
  ∃ token alice',
    encryptBtn_onclick (Some i) plainText alice = (Shown token, alice')
    ∧ ∀ pasted, trim pasted = token →
        decryptBtn_onclick pasted bob = (Shown (trim plainText), bob).
Proof.
  intros HA HB HidA HidB Hload Hi Hmsg.
  destruct (randombytes_buf crypto_box_NONCEBYTES (csprng alice))
    as [nonce g] eqn:Hrand.
  assert (length nonce = crypto_box_NONCEBYTES) as Hlen.
  { pose proof (randombytes_length crypto_box_NONCEBYTES (csprng alice)) as Hl.
    by rewrite Hrand in Hl. }
  destruct (box_roundtrip (from_string (trim plainText)) nonce pkA skA pkB skB
              HA HB Hlen) as (cipher & Hseal & Hopen).
  eexists _, _. split.
  - rewrite encryptBtn_onclick_run, Hload. cbn [get_index].
    rewrite Hi. cbn [default truthy].
    destruct (String.eqb_spec (trim plainText) ""); [done|]. cbn [negb].
    cbn [contact_value get_prop assoc]. cbn.
    by rewrite (encryptMessage_sealed alice pkA skA pkB _ nonce g cipher)
      by eauto using base64_roundtrip.
  - intros pasted Hpasted. unfold decryptBtn_onclick, handler, try_catch.
    rewrite Hpasted. cbn [truthy].
    destruct (String.eqb_spec
                (to_base64 pkA +:+ ":" +:+ to_base64 nonce
                   +:+ ":" +:+ to_base64 cipher) "") as [Hempty|_];
      [by destruct (token_not_empty _ _ _ Hempty)|]. cbn [negb].
    unfold mbind at 1. unfold M_bind at 1.
    by rewrite (decryptMessage_opened bob pkB skB pkA nonce cipher
                  (from_string (trim plainText)) (trim plainText))
      by eauto using base64_roundtrip, base64_no_colon, string_roundtrip.
Qed.

(** *** Records that are there but cannot be used *)

(** X7. A stored identity that passes the check but has no private key
    that decodes does not show as such: [decryptMessage] reports "Failed to
    decrypt" on every token of three decodable fields, and
    [encryptMessage] fails with the error of the decoding, after the nonce
    has been drawn. *)
Theorem unusable_private_key (st : state) (myKeys : value) :
  identity_present st myKeys →
  stored_private_key myKeys = None →
  (∀ token a b c,
     split ":" token = [a; b; c] →
     is_Some (from_base64 a) → is_Some (from_base64 b) →
     is_Some (from_base64 c) →
     decryptMessage token st = (Err FailedToDecrypt, st))
  ∧ (∀ recipientKey pk message,
       from_base64 recipientKey = Some pk →
       ∃ e, (e = TypeError ∨ e = SodiumError)
            ∧ encryptMessage (VStr recipientKey) message st
              = (Err e,
                 State (localStorage st)
                   (snd (randombytes_buf crypto_box_NONCEBYTES (csprng st))))).
Proof.
  intros Hid Hkey. split.
  - intros token a b c Hsplit [spk Ha] [n Hb] [ct Hc].
    rewrite (decryptMessage_parts st myKeys token Hid), Hsplit, Ha, Hb, Hc.
    unfold opens_to. by rewrite Hkey.
  - intros recipientKey pk message Hrk. destruct Hid as [Hload Htruthy].
    unfold encryptMessage. unfold mbind at 1. unfold M_bind at 1.
    rewrite loadMyKeys_eq, Hload, Htruthy. cbn [negb]. unfold_M.
    rewrite Hrk. destruct (randombytes_buf _ _) as [nonce g]. cbn.
    unfold stored_private_key in Hkey.
    destruct myKeys; cbn in Htruthy, Hkey |- *; try done; eauto.
    destruct (assoc "privateKey" fields); eauto.
    rewrite Hkey. eauto.
Qed.

(** X8. The key of a contact is first looked at when a message is
    encrypted for it.  A contact whose key text does not decode (the form
    and the scanner accept any text) makes the encrypt button end in the
    "Encryption failed" alert with the decoder's error, before a nonce is
    drawn: the state is as it was. *)
Theorem unusable_contact_key (st : state) (myKeys : value) (l : list value)
    (i : nat) (name key plainText : string) :
  identity_present st myKeys →
  fst (loadContacts st) = Ok (VArr l) →
  l !! i = Some (contact_value name key) →
  from_base64 key = None →
  trim plainText ≠ "" →
  encryptBtn_onclick (Some i) plainText st
  = (Alerted (EncryptionFailed SodiumError), st).
Proof.
  intros [Hkeys Htruthy] Hload Hi Hkey Hmsg.
  rewrite encryptBtn_onclick_run, Hload. cbn [get_index].
  rewrite Hi. cbn [default truthy].
  destruct (String.eqb_spec (trim plainText) ""); [done|]. cbn [negb].
  cbn [contact_value get_prop assoc]. cbn.
  unfold encryptMessage. unfold mbind at 1. unfold M_bind at 1.
  rewrite loadMyKeys_eq, Hkeys, Htruthy. cbn [negb]. unfold_M.
  by rewrite Hkey.
Qed.

(** *** The recipient selector after an add *)

Lemma encryptBtn_onclick_frame i plainText st st' l l' :
  fst (loadMyKeys st) = fst (loadMyKeys st') →
  csprng st = csprng st' →
  fst (loadContacts st) = Ok (VArr l) →
  fst (loadContacts st') = Ok (VArr l') →
  l !! i = l' !! i →
  fst (encryptBtn_onclick (Some i) plainText st)
  = fst (encryptBtn_onclick (Some i) plainText st').
Proof.
  intros Hkeys Hrng Hl Hl' Hi.
  rewrite !encryptBtn_onclick_run, Hl, Hl'. cbn [get_index]. rewrite Hi.
  destruct (negb _); [done|].
  destruct (get_prop _ "publicKey") as [publicKey|e]; [|done].
  destruct (encryptMessage_frame publicKey (trim plainText) st st' Hkeys Hrng)
    as [Hfst _].
  destruct (encryptMessage publicKey (trim plainText) st) as [[t|e] s1],
    (encryptMessage publicKey (trim plainText) st') as [[t'|e'] s2];
    cbn in Hfst |- *; congruence.
Qed.

(** X13. Adding a contact does not move the others: after the save, every
    option the selector had before encrypts for the same contact, with the
    same result, and the first index that named no contact -- where
    encrypting ended in a TypeError -- now names the new one. *)
Theorem selector_indices_stable (st : state) (l : list value) (c : value) :
  fst (loadContacts st) = Ok (VArr l) →
  json_faithful (VArr (l ++ [c])) →
  (∀ i plainText, (i < length l)%nat →
     fst (encryptBtn_onclick (Some i) plainText (persisted st l c))
     = fst (encryptBtn_onclick (Some i) plainText st))
  ∧ (∀ plainText, trim plainText ≠ "" →
       fst (encryptBtn_onclick (Some (length l)) plainText st)
       = Alerted (EncryptionFailed TypeError)
       ∧ fst (encryptBtn_onclick (Some (length l)) plainText (persisted st l c))
         = match get_prop c "publicKey" with
           | Err e => Alerted (EncryptionFailed e)
           | Ok publicKey =>
               match fst (encryptMessage publicKey (trim plainText) st) with
               | Ok encrypted => Shown encrypted
               | Err e => Alerted (EncryptionFailed e)
               end
           end).
Proof.
  intros Hload Hfaithful.
  assert (fst (loadContacts (persisted st l c)) = Ok (VArr (l ++ [c]))) as Hload'
    by (by rewrite loadContacts_persisted).
  split.
  - intros i plainText Hi.
    apply (encryptBtn_onclick_frame i plainText _ _ (l ++ [c]) l); try done.
    + apply loadMyKeys_persisted.
    + by apply lookup_app_l.
  - intros plainText Hmsg.
    rewrite !encryptBtn_onclick_run, Hload, Hload'. cbn [get_index truthy].
    rewrite (lookup_ge_None_2 l (length l)) by done.
    rewrite list_lookup_middle by done. cbn [default].
    destruct (String.eqb_spec (trim plainText) ""); [done|]. cbn [negb].
    unfold id. split; [done|].
    destruct (get_prop c "publicKey") as [publicKey|e]; [|done].
    destruct (encryptMessage_frame publicKey (trim plainText)
                (persisted st l c) st) as [Hfst _];
      [apply loadMyKeys_persisted | done |].
    destruct (encryptMessage publicKey (trim plainText) (persisted st l c))
      as [[t|e] s1],
      (encryptMessage publicKey (trim plainText) st) as [[t'|e'] s2];
      cbn in Hfst |- *; congruence.
Qed.

(** *** What a token is *)

(** X15. [encryptMessage] returns a token only when a box was sealed: with
    the nonce drawn at the call, the decoded key of the recipient and the
    stored private key.  The token is the stored public key text, the
    nonce and that box, and only the generator has moved. *)
Theorem encryptMessage_token_form (recipient : value) (message token : string)
    (st st' : state) :
  encryptMessage recipient message st = (Ok token, st') →
  let draw := randombytes_buf crypto_box_NONCEBYTES (csprng st) in
  ∃ myKeys recipientKey pk sk publicKey cipher,
    identity_present st myKeys
    ∧ recipient = VStr recipientKey
    ∧ from_base64 recipientKey = Some pk
    ∧ stored_private_key myKeys = Some sk
    ∧ get_prop myKeys "publicKey" = Ok publicKey
    ∧ crypto_box_easy (from_string message) (fst draw) pk sk = Some cipher
    ∧ token = js_String publicKey +:+ ":" +:+ to_base64 (fst draw)
                +:+ ":" +:+ to_base64 cipher
    ∧ st' = State (localStorage st) (snd draw).
Proof.
  unfold encryptMessage. unfold mbind at 1. unfold M_bind at 1.
  rewrite loadMyKeys_eq.
  destruct (fst (loadMyKeys st)) as [myKeys|e] eqn:Hload; [|done].
  destruct (truthy myKeys) eqn:Htruthy; [|done]. cbn [negb]. unfold_M.
  destruct recipient as [| | | |recipientKey| |]; try done.
  destruct (from_base64 recipientKey) as [pk|] eqn:Hpk; [|done].
  destruct (randombytes_buf _ _) as [nonce g]. cbn.
  unfold stored_private_key.
  destruct (get_prop myKeys "privateKey") as [[| | | |skText| |]|] eqn:Hprivate;
    try done.
  destruct (from_base64 skText) as [sk|] eqn:Hsk; [|done]. cbn.
  destruct (crypto_box_easy _ _ _ _) as [cipher|] eqn:Hseal; [|done]. cbn.
  destruct (get_prop myKeys "publicKey") as [publicKey|] eqn:Hpublic; [|done].
  cbn. unfold template_literal. destruct (not_convertible publicKey); [done|].
  intros [= <- <-]. exists myKeys, recipientKey, pk, sk, publicKey, cipher.
  by rewrite Hprivate.
Qed.

(** *** Nonces *)



(** *** What the form stores *)
















(** *** The scanner variable *)

Lemma stop_scanner_invariant s st p :
  scanner_invariant p → html5QrCode p = Some s →
  scanner_invariant (stop_scanner s st p).
Proof.
  intros (Hcur & Hstopped & Hpending) Hs. destruct (Hcur s Hs) as [Hlt Hnot].
  split_and!; cbn.
  - done.
  - intros s' [->|Hin]%elem_of_cons; eauto.
  - intros s' [Hin| ->%list_elem_of_singleton]%elem_of_app;
      apply elem_of_cons; eauto.
Qed.

Lemma step_invariant e p seen p' :
  scanner_invariant p →
  step e p = Some (seen, p') →
  scanner_invariant p'
  ∧ ∀ s r, (s, r) ∈ seen → r ≠ Cleared s.
Proof.
  intros Hinv Hstep. destruct e as [|decodedText promptResult|i]; cbn in Hstep.
  - injection Hstep as <- <-. split; [|by intros s r ?%elem_of_nil].
    unfold scanQrBtn_onclick.
    destruct (html5QrCode p) as [s|] eqn:Hs; [by apply stop_scanner_invariant|].
    destruct Hinv as (Hcur & Hstopped & Hpending).
    split_and!; cbn.
    + intros s [= <-]. split; [lia|]. intros Hin%Hstopped. lia.
    + intros s Hin%Hstopped. lia.
    + done.
  - destruct (html5QrCode p) as [s|] eqn:Hs; [|done].
    injection Hstep as <- <-. split; [|by intros s' r ?%elem_of_nil].
    unfold scanner_onDecoded.
    destruct (scanQr_onDecoded _ _ _) as [o st].
    assert (scanner_invariant
              (Page st (html5QrCode p) (constructed p) (stopped p) (pending p)))
      as Hsame by (by destruct Hinv as (? & ? & ?)).
    destruct o as [| | |[]|]; cbn [snd]; try done.
    by apply stop_scanner_invariant.
  - destruct (pending p !! i) as [s|] eqn:Hi; [|done].
    injection Hstep as <- <-.
    destruct Hinv as (Hcur & Hstopped & Hpending). split.
    + split_and!; cbn; [done..|].
      intros s' Hin. apply Hpending.
      by eapply list_elem_of_delete_inv.
    + intros s' r [= -> ->]%list_elem_of_singleton. unfold run_cleanup.
      destruct (html5QrCode p) as [cur|] eqn:Hcur'; [|done].
      intros [= ->]. destruct (Hcur s eq_refl) as [_ Hnot].
      apply Hnot, Hpending. by eapply list_elem_of_lookup_2.
Qed.

Lemma run_invariant events p seen p' :
  scanner_invariant p →
  run events p = Some (seen, p') →
  scanner_invariant p'
  ∧ ∀ s r, (s, r) ∈ seen → r ≠ Cleared s.
Proof.
  revert p seen. induction events as [|e events IH]; intros p seen Hinv Hrun;
    cbn in Hrun.
  - injection Hrun as <- <-. split; [done|]. by intros s r ?%elem_of_nil.
  - destruct (step e p) as [[seen1 p1]|] eqn:Hstep; [|done].
    destruct (run events p1) as [[seen2 p2]|] eqn:Hrest; [|done].
    injection Hrun as <- <-.
    destruct (step_invariant e p seen1 p1 Hinv Hstep) as [Hinv1 Hseen1].
    destruct (IH p1 seen2 Hinv1 Hrest) as [Hinv2 Hseen2].
    split; [done|]. intros s r [?|?]%elem_of_app; eauto.
Qed.

(** X17. The callback attached to [stop()] never reaches the scanner it
    was attached for.  Whatever is clicked and decoded, and in whatever
    order the promises settle, when it runs the variable holds null or a
    newer scanner; and when the promise settles before the scan button is
    clicked again, the callback throws a TypeError. *)
Theorem cleanup_misses_its_scanner (st : state) (events : list event)
    (seen : list (nat * cleanup)) (p : page) :
  run events (loaded st) = Some (seen, p) →
  (∀ s r, (s, r) ∈ seen → r ≠ Cleared s)
  ∧ (∀ s, html5QrCode p = Some s →
       ∃ p', run [ClickScan; Settle (length (pending p))] p
             = Some ([(s, CleanupTypeError)], p')).
Proof.
  intros Hrun.
  assert (scanner_invariant (loaded st)) as Hinit.
  { split_and!; cbn; [done| |]; by intros s ?%elem_of_nil. }
  destruct (run_invariant events (loaded st) seen p Hinit Hrun) as [Hinv Hseen].
  split; [done|]. intros s Hs. cbn. unfold scanQrBtn_onclick. rewrite Hs. cbn.
  rewrite lookup_app_r, Nat.sub_diag by done. cbn. eauto.
Qed.

End Properties.

(** ** The properties on the run *)

Import Reference Scenario.

(** End to end: Alice encrypts "hello" for Bob, Bob decrypts that token. *)
Lemma encrypt_decrypt_roundtrip_witness :
  ∃ token alice',
    encryptMessage (VStr (to_base64 pkB)) "hello" alice = (Ok token, alice')
    ∧ decryptMessage token bob = (Ok "hello", bob).
Proof.
  apply (encrypt_decrypt_roundtrip (SodiumLaws0 := ReferenceFacts.laws)
           alice bob pkA skA pkB skB "hello").
  - exists 1%N. reflexivity.
  - exists 2%N. reflexivity.
  - vm_compute. reflexivity.
  - vm_compute. reflexivity.
Defined.

(** The token is the one of the run, and only Bob opens it. *)
Example hello_token :
  encryptBtn_onclick (Some 0%nat) " hello " alice
    = (Shown hello_for_bob, State (localStorage alice) 3%N)
  ∧ decryptBtn_onclick hello_for_bob bob = (Shown "hello", bob)
  ∧ decryptBtn_onclick hello_for_bob carol = (ShownError FailedToDecrypt, carol).
Proof.
  split_and!; apply run_eq; vm_compute; reflexivity.
Qed.



(** A three-part token with a field that is not base64, or with an empty
    field, does not fail with "Invalid message format". *)
Lemma malformed_field_counterexample :
  split ":" "!!!!:AAAA:AAAA" = ["!!!!"; "AAAA"; "AAAA"]
  ∧ from_base64 "!!!!" = None
  ∧ fst (decryptMessage "!!!!:AAAA:AAAA" bob) = Err SodiumError
  ∧ split ":" "AAAA::AAAA" = ["AAAA"; ""; "AAAA"]
  ∧ fst (decryptMessage "AAAA::AAAA" bob) = Err FailedToDecrypt
  ∧ Err SodiumError ≠ Err (A := string) InvalidMessageFormat
  ∧ Err FailedToDecrypt ≠ Err (A := string) InvalidMessageFormat.
Proof. vm_compute. split_and!; done. Qed.

Lemma malformed_envelope_is_part_count_witness :
  fst (decryptMessage "AAAA:AAAA" bob) = Err InvalidMessageFormat
  ↔ length (split ":" "AAAA:AAAA") ≠ 3%nat.
Proof.
  apply (malformed_envelope_is_part_count bob (keys_value pkB skB) "AAAA:AAAA").
  split; vm_compute; reflexivity.
Defined.

(** Without an identity the encrypt button ends in other ways than
    "No local keypair found": no recipient chosen, no such contact, a
    blank message, a contact slot that does not parse; and the decrypt
    button asks for a message first when its input is blank. *)
Lemma no_identity_counterexample :
  localStorage (device 1) !! "myKeys" = None
  ∧ localStorage visitor !! "myKeys" = None
  ∧ fst (encryptBtn_onclick None "hello" (device 1)) = Alerted SelectRecipientFirst
  ∧ fst (encryptBtn_onclick (Some 0%nat) "hello" (device 1))
    = Alerted (EncryptionFailed TypeError)
  ∧ fst (encryptBtn_onclick (Some 0%nat) "   " visitor) = Alerted TypeMessageFirst
  ∧ fst (encryptBtn_onclick (Some 0%nat) "hello"
           (with_contacts "{not json" (device 1))) = Uncaught SyntaxError
  ∧ fst (decryptBtn_onclick "   " (device 1)) = Alerted PasteMessageFirst
  ∧ Alerted SelectRecipientFirst ≠ Alerted (EncryptionFailed NoLocalKeypair)
  ∧ Alerted (EncryptionFailed TypeError) ≠ Alerted (EncryptionFailed NoLocalKeypair)
  ∧ Alerted TypeMessageFirst ≠ Alerted (EncryptionFailed NoLocalKeypair)
  ∧ Uncaught SyntaxError ≠ Alerted (EncryptionFailed NoLocalKeypair)
  ∧ Alerted PasteMessageFirst ≠ ShownError NoLocalKeypair.
Proof. vm_compute. split_and!; done. Qed.

(** A device without keys: the operations, the decrypt button, and the
    encrypt button once a contact is there to encrypt for. *)
Lemma no_identity_is_reported_witness :
  encryptMessage (VStr bob_public_key) "hello" (device 1)
    = (Err NoLocalKeypair, device 1)
  ∧ decryptMessage hello_for_bob (device 1) = (Err NoLocalKeypair, device 1)
  ∧ decryptBtn_onclick hello_for_bob (device 1)
    = (ShownError NoLocalKeypair, device 1)
  ∧ encryptBtn_onclick (Some 0%nat) "hello" visitor
    = (Alerted (EncryptionFailed NoLocalKeypair), visitor).
Proof.
  destruct (no_identity_is_reported (device 1))
    as (Hoperations & Hdecrypt & _ & _); [vm_compute; reflexivity|].
  destruct (no_identity_is_reported visitor)
    as (_ & _ & _ & Hencrypt); [vm_compute; reflexivity|].
  split_and!.
  - apply Hoperations; exact "".
  - apply (Hoperations VNull "").
  - etransitivity; [apply Hdecrypt|]. apply run_eq; vm_compute; reflexivity.
  - etransitivity; [apply Hencrypt|]. apply run_eq; vm_compute; reflexivity.
Defined.

(** Alice has one contact; option 1 of the selector names none.  The
    handler ends in the general failure alert carrying a TypeError, not in
    a recipient check. *)
Lemma missing_recipient_counterexample :
  fst (loadContacts alice) = Ok (VArr [contact_value "Bob" bob_public_key])
  ∧ has_identity alice pkA skA
  ∧ fst (encryptBtn_onclick (Some 1%nat) "hello" alice)
    = Alerted (EncryptionFailed TypeError)
  ∧ Alerted (EncryptionFailed TypeError) ≠ Alerted SelectRecipientFirst
  ∧ fst (encryptBtn_onclick (Some 1%nat) "hello" (device 1))
    = Alerted (EncryptionFailed TypeError).
Proof. vm_compute. split_and!; done. Qed.

Lemma recipient_resolution_witness :
  encryptBtn_onclick None " hello " alice = (Alerted SelectRecipientFirst, alice)
  ∧ encryptBtn_onclick (Some 1%nat) " hello " alice
    = (Alerted (EncryptionFailed TypeError), alice)
  ∧ encryptBtn_onclick (Some 0%nat) " hello " alice
    = (Shown hello_for_bob, State (localStorage alice) 3%N).
Proof.
  destruct (recipient_resolution (SodiumLaws0 := ReferenceFacts.laws)
              alice [contact_value "Bob" bob_public_key] " hello ")
    as (Hnone & Hout & Hin).
  - vm_compute. reflexivity.
  - vm_compute. discriminate.
  - split_and!.
    + exact Hnone.
    + apply Hout. vm_compute. lia.
    + apply (Hin 0%nat "Bob" pkA skA pkB (counter_bytes NONCEBYTES 2) 3%N
               (counter_bytes NONCEBYTES 2 ++ shared_key pkB skA
                  ++ utf8_bytes "hello" ++ separator ++ utf8_bytes "hello"));
        vm_compute; reflexivity.
Defined.

(** A stored list holding a null entry: the form saves the new contact
    and then the re-rendering throws; the scanned-code path reports
    "Failed to add contact" with the contact saved. *)
Lemma failed_add_counterexample :
  let st := with_contacts "[null]" alice_alone in
  let saved := JSON_stringify (VArr [VNull; contact_value "Bob" "key"]) in
  localStorage st !! "contacts" = Some "[null]"
  ∧ fst (addContactBtn_onclick "Bob" "key" st) = Uncaught TypeError
  ∧ localStorage (snd (addContactBtn_onclick "Bob" "key" st)) !! "contacts"
    = Some saved
  ∧ fst (scanQr_onDecoded "key" (Some "Bob") st)
    = Alerted (FailedToAddContact TypeError)
  ∧ localStorage (snd (scanQr_onDecoded "key" (Some "Bob") st)) !! "contacts"
    = Some saved
  ∧ saved ≠ "[null]".
Proof. vm_compute. split_and!; done. Qed.

Lemma failure_leaves_storage_witness :
  let st := with_contacts "[null]" alice_alone in
  let st' := snd (addContactBtn_onclick "Bob" "key" st) in
  (Uncaught TypeError ≠ Done ∧ st' = st)
  ∨ ∃ l, fst (loadContacts st) = Ok (VArr l)
         ∧ st' = persisted st l (contact_value (trim "Bob") (trim "key"))
         ∧ (Uncaught TypeError = Done
            ∨ ∃ e, Uncaught TypeError = Uncaught e
                   ∧ fst (renderContacts st') = Err e).
Proof.
  destruct (failure_leaves_storage (with_contacts "[null]" alice_alone))
    as (_ & _ & _ & _ & Hadd).
  apply (Hadd "Bob" "key").
  apply run_eq; vm_compute; reflexivity.
Defined.

(** Nothing stored gives the empty list.  Alice, who has Bob in her
    list, adds Carol, by the form or by scanning Carol's code: Bob stays
    first, Carol comes second. *)
Lemma contacts_append_only_witness :
  let bob_contact :=
    VObj [("name", VStr "Bob"); ("publicKey", VStr bob_public_key)] in
  let carol_contact :=
    VObj [("name", VStr "Carol"); ("publicKey", VStr carol_public_key)] in
  loadContacts alice_alone = (Ok (VArr []), alice_alone)
  ∧ fst (loadContacts alice) = Ok (VArr [bob_contact])
  ∧ fst (loadContacts
           (snd (addContactBtn_onclick " Carol " carol_public_key alice)))
    = Ok (VArr [bob_contact; carol_contact])
  ∧ [bob_contact; carol_contact] !! 0%nat = Some bob_contact
  ∧ [bob_contact; carol_contact] !! 1%nat = Some carol_contact
  ∧ fst (loadContacts
           (snd (scanQr_onDecoded carol_public_key (Some "Carol") alice)))
    = Ok (VArr [bob_contact; carol_contact]).
Proof.
  intros bob_contact carol_contact.
  destruct (contacts_append_only alice_alone) as (Hempty & _ & _).
  destruct (contacts_append_only alice) as (_ & Hform & Hscan).
  destruct (Hform " Carol " carol_public_key
              (snd (addContactBtn_onclick " Carol " carol_public_key alice)))
    as (l & Hl & Hnext); [by apply run_eq; [vm_compute|..]|].
  destruct (Hscan carol_public_key (Some "Carol")
              (snd (scanQr_onDecoded carol_public_key (Some "Carol") alice)))
    as (l' & name & Hname & Hl' & Hnext'); [by apply run_eq; [vm_compute|..]|].
  assert (l = [bob_contact]) as -> by (vm_compute in Hl; by injection Hl as <-).
  assert (l' = [bob_contact]) as -> by (vm_compute in Hl'; by injection Hl' as <-).
  assert (name = "Carol") as -> by congruence.
  destruct Hnext as (Hloaded & Hlast & _ & Hkept);
    [split; vm_compute; [discriminate | reflexivity]|].
  destruct Hnext' as (Hloaded' & _);
    [split; vm_compute; [discriminate | reflexivity]|].
  split_and!.
  - apply Hempty; vm_compute; reflexivity.
  - vm_compute. reflexivity.
  - exact Hloaded.
  - by apply (Hkept 0%nat).
  - exact Hlast.
  - exact Hloaded'.
Defined.

(** Text that is not JSON fails with the parser's SyntaxError; an empty
    record and JSON of another shape do not fail at all. *)
Lemma corrupt_record_counterexample :
  JSON_parse "{not json" = None
  ∧ fst (loadContacts (with_contacts "{not json" (device 1))) = Err SyntaxError
  ∧ fst (loadMyKeys (with_identity "{not json" (device 1))) = Err SyntaxError
  ∧ fst (loadContacts (with_contacts "" (device 1))) = Ok (VArr [])
  ∧ fst (loadMyKeys (with_identity "" (device 1))) = Ok VNull
  ∧ fst (loadContacts (with_contacts "5" (device 1))) = Ok (VNum 5)
  ∧ fst (loadMyKeys (with_identity "[null]" (device 1))) = Ok (VArr [VNull]).
Proof. vm_compute. split_and!; done. Qed.

Lemma corrupt_record_is_syntax_error_witness :
  loadMyKeys (with_identity "{not json" (device 1))
    = (Err SyntaxError, with_identity "{not json" (device 1))
  ∧ loadContacts (with_contacts "{not json" (device 1))
    = (Err SyntaxError, with_contacts "{not json" (device 1)).
Proof.
  split.
  - apply (corrupt_record_is_syntax_error
             (with_identity "{not json" (device 1)) "{not json");
      [discriminate | vm_compute; reflexivity].
  - apply (corrupt_record_is_syntax_error
             (with_contacts "{not json" (device 1)) "{not json");
      [discriminate | vm_compute; reflexivity].
Defined.

(** Alice scans a code that holds no key, and one that holds nothing:
    both become contacts, after Bob. *)
Lemma scanned_key_is_not_validated_witness :
  let bob_contact :=
    VObj [("name", VStr "Bob"); ("publicKey", VStr bob_public_key)] in
  fst (loadContacts (snd (scanQr_onDecoded "not a key!" (Some "Eve") alice)))
    = Ok (VArr [bob_contact;
                VObj [("name", VStr "Eve"); ("publicKey", VStr "not a key!")]])
  ∧ fst (scanQr_onDecoded "not a key!" (Some "Eve") alice) = Alerted ContactAdded
  ∧ fst (loadContacts (snd (scanQr_onDecoded "" (Some "Eve") alice)))
    = Ok (VArr [bob_contact; VObj [("name", VStr "Eve"); ("publicKey", VStr "")]])
  ∧ scanQr_onDecoded "not a key!" None alice = (Alerted NameRequired, alice)
  ∧ addContactBtn_onclick "Eve" "  " alice = (Alerted NameAndKeyRequired, alice).
Proof.
  intros bob_contact.
  pose proof (scanned_key_is_not_validated alice [bob_contact] "not a key!" "Eve")
    as Hkey.
  pose proof (scanned_key_is_not_validated alice [bob_contact] "" "Eve")
    as Hnothing.
  cbv zeta in Hkey, Hnothing.
  destruct Hkey as (_ & _ & _ & Hread & Hadded & Hcancelled & _ & Hform);
    [vm_compute; reflexivity | discriminate | vm_compute; reflexivity |].
  destruct Hnothing as (_ & _ & _ & Hread' & _);
    [vm_compute; reflexivity | discriminate | vm_compute; reflexivity |].
  split_and!.
  - apply Hread. split; vm_compute; [discriminate | reflexivity].
  - apply Hadded. vm_compute. reflexivity.
  - apply Hread'. split; vm_compute; [discriminate | reflexivity].
  - exact Hcancelled.
  - apply Hform. right. vm_compute. reflexivity.
Defined.

(** ** The further properties on the run *)

Lemma alice_alone_well_formed : well_formed alice_alone.
Proof.
  split.
  - right. exists pkA, skA. vm_compute. reflexivity.
  - exists []. split; [vm_compute; reflexivity | constructor].
Qed.

Lemma alice_well_formed : well_formed alice.
Proof.
  split.
  - right. exists pkA, skA. vm_compute. reflexivity.
  - exists [contact_value "Bob" bob_public_key].
    split; [vm_compute; reflexivity|].
    repeat constructor. by eexists _, _.
Qed.

(** Bob has no contact at all, and a broken contact slot changes nothing. *)
Lemma operations_ignore_contacts_witness :
  fst (decryptMessage hello_for_bob (with_contacts "[null]" bob))
  = fst (decryptMessage hello_for_bob bob).
Proof.
  symmetry.
  apply (operations_ignore_contacts bob (with_contacts "[null]" bob)).
  vm_compute. reflexivity.
Defined.

(** A stored [0] is no identity. *)
Lemma falsy_identity_is_no_identity_witness :
  encryptMessage (VStr bob_public_key) "hello" (with_identity "0" (device 1))
    = (Err NoLocalKeypair, with_identity "0" (device 1))
  ∧ decryptMessage hello_for_bob (with_identity "0" (device 1))
    = (Err NoLocalKeypair, with_identity "0" (device 1)).
Proof.
  apply (falsy_identity_is_no_identity (with_identity "0" (device 1)) (VNum 0));
    vm_compute; reflexivity.
Defined.

Lemma encryptBtn_onclick_uncaught_witness :
  (SyntaxError = SyntaxError
   ∧ fst (loadContacts (with_contacts "{not json" alice)) = Err SyntaxError)
  ∨ (SyntaxError = TypeError
     ∧ (fst (loadContacts (with_contacts "{not json" alice)) = Ok VNull
        ∨ fst (loadContacts (with_contacts "{not json" alice)) = Ok VUndefined)).
Proof.
  apply (encryptBtn_onclick_uncaught (Some 0%nat) "hello"
           (with_contacts "{not json" alice) SyntaxError).
  vm_compute. reflexivity.
Defined.

(** Alice types " hello ", Bob pastes the token with blanks around it. *)
Lemma paste_roundtrip_witness :
  ∃ token alice',
    encryptBtn_onclick (Some 0%nat) " hello " alice = (Shown token, alice')
    ∧ ∀ pasted, trim pasted = token →
        decryptBtn_onclick pasted bob = (Shown (trim " hello "), bob).
Proof.
  apply (paste_roundtrip (SodiumLaws0 := ReferenceFacts.laws) alice bob
           [contact_value "Bob" bob_public_key] 0 "Bob" pkA skA pkB skB " hello ").
  - exists 1%N. reflexivity.
  - exists 2%N. reflexivity.
  - vm_compute. reflexivity.
  - vm_compute. reflexivity.
  - vm_compute. reflexivity.
  - vm_compute. reflexivity.
  - vm_compute. discriminate.
Defined.

(** Alice generates keys again: the new pair is her identity, Bob is
    still her contact. *)
Lemma generate_replaces_identity_witness :
  let pk := public_of (counter_bytes KEYBYTES 2) in
  let sk := counter_bytes KEYBYTES 2 in
  generateBtn_onclick alice = (Done, regenerated alice pk sk 3%N)
  ∧ has_identity (regenerated alice pk sk 3%N) pk sk
  ∧ fst (loadContacts (regenerated alice pk sk 3%N)) = fst (loadContacts alice).
Proof.
  apply (generate_replaces_identity alice
           (public_of (counter_bytes KEYBYTES 2)) (counter_bytes KEYBYTES 2) 3%N).
  - vm_compute. reflexivity.
  - vm_compute. reflexivity.
  - split; vm_compute; [discriminate | reflexivity].
Defined.

(** A stored [{}] passes for an identity and fails only in use. *)
Lemma unusable_private_key_witness :
  decryptMessage hello_for_bob (with_identity "{}" (device 1))
  = (Err FailedToDecrypt, with_identity "{}" (device 1)).
Proof.
  destruct (unusable_private_key (with_identity "{}" (device 1)) (VObj []))
    as [Hdecrypt _].
  - split; vm_compute; reflexivity.
  - vm_compute. reflexivity.
  - apply (Hdecrypt hello_for_bob
             "_v________________________________________8"
             "AgAAAAAAAAAAAAAAAAAAAAAAAAAAAAAA"
             "AgAAAAAAAAAAAAAAAAAAAAAAAAAAAAAAAwAAAAAAAAAAAAAAAAAAAAAAAAAAAAAAAAAAAAAAAABoZWxsbwAAAGhlbGxv");
      vm_compute; eauto.
Defined.

(** A scanned text that is no key is stored, and refused when used. *)
Lemma unusable_contact_key_witness :
  let st := snd (scanQr_onDecoded "not a key!" (Some "Eve") alice_alone) in
  encryptBtn_onclick (Some 0%nat) "hello" st
  = (Alerted (EncryptionFailed SodiumError), st).
Proof.
  apply (unusable_contact_key
           (snd (scanQr_onDecoded "not a key!" (Some "Eve") alice_alone))
           (keys_value pkA skA) [contact_value "Eve" "not a key!"]
           0 "Eve" "not a key!" "hello").
  - split; vm_compute; reflexivity.
  - vm_compute. reflexivity.
  - reflexivity.
  - vm_compute. reflexivity.
  - vm_compute. discriminate.
Defined.

Lemma well_formed_preserved_witness :
  well_formed (snd (addContactBtn_onclick " Bob " bob_public_key alice_alone))
  ∧ well_formed (snd (generateBtn_onclick alice_alone)).
Proof.
  destruct (well_formed_preserved alice_alone alice_alone_well_formed)
    as (_ & _ & Hadd & _ & Hgenerate).
  split.
  - apply (Hadd " Bob " bob_public_key []).
    + vm_compute. reflexivity.
    + split; vm_compute; [discriminate | reflexivity].
  - apply (Hgenerate (public_of (counter_bytes KEYBYTES 2))
             (counter_bytes KEYBYTES 2) 3%N).
    + vm_compute. reflexivity.
    + split; vm_compute; [discriminate | reflexivity].
Defined.

Lemma add_contact_on_well_formed_witness :
  addContactBtn_onclick " Bob " bob_public_key alice_alone
    = (Done, persisted alice_alone [] (contact_value "Bob" bob_public_key))
  ∧ addContactBtn_onclick "Bob" "   " alice_alone
    = (Alerted NameAndKeyRequired, alice_alone).
Proof.
  split.
  - apply (add_contact_on_well_formed alice_alone " Bob " bob_public_key []
             alice_alone_well_formed).
    + vm_compute. reflexivity.
    + split; vm_compute; [discriminate | reflexivity].
  - apply (add_contact_on_well_formed alice_alone "Bob" "   " []
             alice_alone_well_formed).
    + vm_compute. reflexivity.
    + split; vm_compute; [discriminate | reflexivity].
Defined.

(** Alice adds Carol: option 0 still encrypts for Bob, option 1, which
    named nobody, now encrypts for Carol. *)
Lemma selector_indices_stable_witness :
  let carol_contact :=
    contact_value "Carol" "_P________________________________________8" in
  let alice2 := persisted alice [contact_value "Bob" bob_public_key]
                  carol_contact in
  fst (encryptBtn_onclick (Some 0%nat) "hello" alice2)
    = fst (encryptBtn_onclick (Some 0%nat) "hello" alice)
  ∧ fst (encryptBtn_onclick (Some 1%nat) "hello" alice)
    = Alerted (EncryptionFailed TypeError).
Proof.
  destruct (selector_indices_stable alice [contact_value "Bob" bob_public_key]
              (contact_value "Carol" "_P________________________________________8"))
    as [Hold Hnew].
  - vm_compute. reflexivity.
  - split; vm_compute; [discriminate | reflexivity].
  - split.
    + apply (Hold 0%nat "hello"). vm_compute. lia.
    + apply (Hnew "hello"). vm_compute. discriminate.
Defined.

Lemma init_on_well_formed_witness :
  init (device 1) = (Ok (), device 1) ∧ init alice = (Ok (), alice).
Proof.
  split.
  - destruct (init_on_well_formed (device 1)) as [Hinit Hempty].
    apply Hinit, Hempty; vm_compute; reflexivity.
  - apply (init_on_well_formed alice), alice_well_formed.
Defined.

Lemma encryptMessage_token_form_witness :
  let draw := randombytes_buf crypto_box_NONCEBYTES (csprng alice) in
  ∃ myKeys recipientKey pk sk publicKey cipher,
    identity_present alice myKeys
    ∧ VStr bob_public_key = VStr recipientKey
    ∧ from_base64 recipientKey = Some pk
    ∧ stored_private_key myKeys = Some sk
    ∧ get_prop myKeys "publicKey" = Ok publicKey
    ∧ crypto_box_easy (from_string "hello") (fst draw) pk sk = Some cipher
    ∧ hello_for_bob = js_String publicKey +:+ ":" +:+ to_base64 (fst draw)
                        +:+ ":" +:+ to_base64 cipher
    ∧ State (localStorage alice) 3%N = State (localStorage alice) (snd draw).
Proof.
  apply (encryptMessage_token_form (VStr bob_public_key) "hello" hello_for_bob
           alice (State (P := platform) (localStorage alice) 3%N)).
  apply run_eq; vm_compute; reflexivity.
Defined.


(** White space that is not ASCII is trimmed as well. *)
Example trim_unicode :
  trim (nbsp +:+ " Bob" +:+ bom +:+ " ") = "Bob"
  ∧ trim (nbsp +:+ bom) = "".
Proof. split; vm_compute; reflexivity. Qed.


(** Stop the first scanner, start a second, then the first promise
    settles: [clear()] lands on the second scanner, which is running. *)
Lemma cleanup_misses_its_scanner_witness :
  run [ClickScan; ClickScan; ClickScan; Settle 0] (loaded (device 1))
    = Some ([(0%nat, Cleared 1)], Page (device 1) (Some 1%nat) 2 [0%nat] [])
  ∧ (∀ s r, (s, r) ∈ [(0%nat, Cleared 1)] → r ≠ Cleared s)
  ∧ ∃ p', run [ClickScan; Settle 0] (Page (device 1) (Some 1%nat) 2 [0%nat] [])
          = Some ([(1%nat, CleanupTypeError)], p').
Proof.
  split; [reflexivity|].
  destruct (cleanup_misses_its_scanner (device 1)
              [ClickScan; ClickScan; ClickScan; Settle 0]
              [(0%nat, Cleared 1)]
              (Page (device 1) (Some 1%nat) 2 [0%nat] []))
    as [Hseen Hnext]; [reflexivity|].
  split; [exact Hseen|]. by apply (Hnext 1%nat).
Defined.
